(** * lxplug-updater: the panel plug-in that checks for package updates

    A shallow embedding of [plugins/updater/updater.c].  The plug-in is
    single-threaded glue around three outside parties: the shell (through
    [system]), the GLib main loop (idle and timeout sources, threads) and
    PackageKit (asynchronous requests answered through callbacks).  They
    appear here as a [World] that the C functions transform:

    - the results of [system] come from an oracle indexed by the number of
      calls made so far, so a probe can answer differently each time;
    - main-loop sources, spawned threads and outstanding PackageKit requests
      are lists in the world, and callbacks are delivered by [step];
    - everything the user or the log can observe is appended to a trace.

    C [int] and [guint] values are integers in [Z] with the conversions
    written out. *)

From Stdlib Require Import ZArith List String Ascii Bool Lia Permutation.
Import ListNotations.
Local Open Scope string_scope.
Local Open Scope Z_scope.
Local Open Scope list_scope.

(** ** Machine integers *)

Module CInt.

(** Conversion to [guint] (32 bits, unsigned). *)
Definition guint_of_Z (z : Z) : Z := z mod 2 ^ 32.

(** Conversion to [int] (32 bits, two's complement). *)
Definition int_of_Z (z : Z) : Z := (z + 2 ^ 31) mod 2 ^ 32 - 2 ^ 31.

End CInt.
Import CInt.
Arguments guint_of_Z : simpl never.
Arguments int_of_Z : simpl never.

(** ** C strings *)

Module CString.

(** [strstr haystack needle]: the suffix of [haystack] starting at the
    first occurrence of [needle], or [None] for the null pointer. *)
Fixpoint strstr (haystack needle : string) : option string :=
  if String.prefix needle haystack then Some haystack
  else match haystack with
       | EmptyString => None
       | String _ rest => strstr rest needle
       end.

(** [strncmp a b n]: zero exactly when the first [n] characters agree,
    the comparison stopping at a terminator common to both. *)
Fixpoint strncmp_eq (a b : string) (n : nat) : bool :=
  match n with
  | O => true
  | S n' =>
      match a, b with
      | EmptyString, EmptyString => true
      | String x a', String y b' => Ascii.eqb x y && strncmp_eq a' b' n'
      | _, _ => false
      end
  end.

(** What "contains" means, independently of the search. *)
Definition occurs_in (needle s : string) : Prop :=
  exists pre post, s = (pre ++ needle ++ post)%string.

End CString.
Import CString.

(** ** PackageKit values

    PackageKit is an outside library.  A package is identified by the four
    fields of its package id, [name;version;arch;data]; a sack is the list of
    packages a query returned. *)

Record PkPackage := mkPkg {
  pkg_name : string;
  pkg_version : string;
  pkg_arch : string;
  pkg_data : string
}.

Definition PkPackageSack := list PkPackage.

Definition pk_package_get_arch (package : PkPackage) : string :=
  pkg_arch package.

Definition pk_package_get_id (package : PkPackage) : string :=
  (pkg_name package ++ ";" ++ pkg_version package ++ ";"
     ++ pkg_arch package ++ ";" ++ pkg_data package)%string.

(** A new sack holding the packages for which the callback answers TRUE. *)
Definition pk_package_sack_filter (sack : PkPackageSack)
    (filter_cb : PkPackage -> bool) : PkPackageSack :=
  List.filter filter_cb sack.

(** The size of a sack is a [guint]. *)
Definition pk_package_sack_get_size (sack : PkPackageSack) : Z :=
  guint_of_Z (Z.of_nat (List.length sack)).

Definition pk_package_sack_get_ids (sack : PkPackageSack) : list string :=
  List.map pk_package_get_id sack.

(** What [pk_task_generic_finish] hands to a completion callback: either a
    [GError] with its message, or results with their package sack. *)
Inductive Finish :=
| Failed (message : string)
| Finished (results : PkPackageSack).

(** ** The world outside the plug-in *)

Inductive callback := cb_init_check | cb_net_check | cb_periodic_check.

Definition callback_eqb (a b : callback) : bool :=
  match a, b with
  | cb_init_check, cb_init_check
  | cb_net_check, cb_net_check
  | cb_periodic_check, cb_periodic_check => true
  | _, _ => false
  end.

(** A main-loop source: an idle source ([src_secs = None]) or a timeout
    source repeating every [src_secs] seconds, next due at [src_due]. *)
Record Source := mkSource {
  src_id : Z;
  src_secs : option Z;
  src_due : Z;
  src_cb : callback
}.

(** One update check on its way: the thread made by [g_thread_new] that has
    not run yet, or a PackageKit request whose callback is outstanding. *)
Inductive Pending :=
| PThread
| PRefreshCache (task : nat)
| PGetUpdates (task : nat).

Definition Pending_eqb (a b : Pending) : bool :=
  match a, b with
  | PThread, PThread => true
  | PRefreshCache i, PRefreshCache j => Nat.eqb i j
  | PGetUpdates i, PGetUpdates j => Nat.eqb i j
  | _, _ => false
  end.

Inductive Arg := ArgS (s : string) | ArgD (d : Z).

Inductive Event :=
| EvSystem (cmd : string) (status : Z)       (* system (cmd) returned status *)
| EvDebug (fmt : string) (args : list Arg)   (* DEBUG (fmt, args) *)
| EvDispatch (cb : callback)                 (* the main loop called cb *)
| EvThreadNew                                (* g_thread_new *)
| EvRefreshCache (task : nat)                (* pk_client_refresh_cache_async *)
| EvGetUpdates (task : nat)                  (* pk_client_get_updates_async *)
| EvNotify (text : string)                   (* lxpanel_notify *)
| EvMessage (text : string) (prog : Z)       (* the modal box of message () *)
| EvSpawn (argv : list string) (askpass : string). (* g_spawn_async *)

(** The fields of the C struct that the code reads or writes; the widget
    back pointers never change and are left out. *)
Record UpdaterPlugin := mkUp {
  menu : bool;                  (* popup menu exists *)
  update_dlg : bool;            (* update list dialog exists *)
  n_updates : Z;                (* int *)
  ids : option (list string);   (* NULL or the id strings *)
  interval : Z;                 (* int, hours *)
  timer : Z                     (* guint source id, 0 for none *)
}.

Record World := mkWorld {
  up : UpdaterPlugin;
  oracle : nat -> string -> Z;  (* exit status of the n-th call of system *)
  ticks : nat;                  (* calls of system made so far *)
  now : Z;                      (* seconds on the main loop's clock *)
  sources : list Source;
  next_id : Z;                  (* next source id *)
  inflight : list Pending;
  next_task : nat;
  shown : bool;                 (* the plug-in button is visible *)
  sensitive : bool;
  settings : option Z;          (* the stored Interval setting *)
  trace : list Event            (* newest first *)
}.

Definition with_up (f : UpdaterPlugin -> UpdaterPlugin) (w : World) : World :=
  mkWorld (f (up w)) (oracle w) (ticks w) (now w) (sources w) (next_id w)
          (inflight w) (next_task w) (shown w) (sensitive w) (settings w)
          (trace w).

Definition with_sources (f : list Source -> list Source) (w : World) : World :=
  mkWorld (up w) (oracle w) (ticks w) (now w) (f (sources w)) (next_id w)
          (inflight w) (next_task w) (shown w) (sensitive w) (settings w)
          (trace w).

Definition with_inflight (f : list Pending -> list Pending) (w : World) : World :=
  mkWorld (up w) (oracle w) (ticks w) (now w) (sources w) (next_id w)
          (f (inflight w)) (next_task w) (shown w) (sensitive w) (settings w)
          (trace w).

Definition with_now (t : Z) (w : World) : World :=
  mkWorld (up w) (oracle w) (ticks w) t (sources w) (next_id w)
          (inflight w) (next_task w) (shown w) (sensitive w) (settings w)
          (trace w).

Definition emit (e : Event) (w : World) : World :=
  mkWorld (up w) (oracle w) (ticks w) (now w) (sources w) (next_id w)
          (inflight w) (next_task w) (shown w) (sensitive w) (settings w)
          (e :: trace w).

Definition set_n_updates (v : Z) (u : UpdaterPlugin) : UpdaterPlugin :=
  mkUp (menu u) (update_dlg u) v (ids u) (interval u) (timer u).
Definition set_ids (v : option (list string)) (u : UpdaterPlugin) : UpdaterPlugin :=
  mkUp (menu u) (update_dlg u) (n_updates u) v (interval u) (timer u).
Definition set_interval (v : Z) (u : UpdaterPlugin) : UpdaterPlugin :=
  mkUp (menu u) (update_dlg u) (n_updates u) (ids u) v (timer u).
Definition set_timer (v : Z) (u : UpdaterPlugin) : UpdaterPlugin :=
  mkUp (menu u) (update_dlg u) (n_updates u) (ids u) (interval u) v.
Definition set_update_dlg (v : bool) (u : UpdaterPlugin) : UpdaterPlugin :=
  mkUp (menu u) v (n_updates u) (ids u) (interval u) (timer u).

(** ** A state monad over the world *)

Definition M (A : Type) : Type := World -> A * World.

Definition ret {A} (a : A) : M A := fun w => (a, w).

Definition bind {A B} (c : M A) (k : A -> M B) : M B :=
  fun w => let (a, w1) := c w in k a w1.

Definition exec {A} (c : M A) (w : World) : World := snd (c w).
Definition eval {A} (c : M A) (w : World) : A := fst (c w).

Declare Scope io_scope.
Delimit Scope io_scope with io.
Notation "x <- c ;; k" := (bind c (fun x => k))
  (at level 61, c at next level, right associativity) : io_scope.
Notation "c ;; k" := (bind c (fun _ => k))
  (at level 61, right associativity) : io_scope.
Local Open Scope io_scope.

Definition modify (f : World -> World) : M unit := fun w => (tt, f w).
Definition when (b : bool) (c : M unit) : M unit := if b then c else ret tt.

(** ** Library calls *)

Definition dquote : ascii := Ascii.ascii_of_nat 34.
Definition newline : ascii := Ascii.ascii_of_nat 10.

(** gettext's [_()]: the untranslated text. *)
Definition tr (s : string) : string := s.

(** [system (cmd)]: the oracle's answer for this call. *)
Definition system (cmd : string) : M Z := fun w =>
  let status := oracle w (ticks w) cmd in
  (status,
   mkWorld (up w) (oracle w) (S (ticks w)) (now w) (sources w) (next_id w)
           (inflight w) (next_task w) (shown w) (sensitive w) (settings w)
           (EvSystem cmd status :: trace w)).

Definition DEBUG (fmt : string) (args : list Arg) : M unit :=
  modify (emit (EvDebug fmt args)).

(** [g_thread_new (NULL, refresh_update_cache, up)]: the thread starts
    whenever the scheduler picks it. *)
Definition g_thread_new : M unit :=
  modify (fun w => with_inflight (fun l => l ++ [PThread]) (emit EvThreadNew w)).

Definition pk_task_new : M nat := fun w =>
  (next_task w,
   mkWorld (up w) (oracle w) (ticks w) (now w) (sources w) (next_id w)
           (inflight w) (S (next_task w)) (shown w) (sensitive w) (settings w)
           (trace w)).

Definition pk_client_refresh_cache_async (task : nat) : M unit :=
  modify (fun w => with_inflight (fun l => l ++ [PRefreshCache task])
                     (emit (EvRefreshCache task) w)).

Definition pk_client_get_updates_async (task : nat) : M unit :=
  modify (fun w => with_inflight (fun l => l ++ [PGetUpdates task])
                     (emit (EvGetUpdates task) w)).

Definition lxpanel_notify (text : string) : M unit :=
  modify (emit (EvNotify text)).

Definition g_spawn_async (argv : list string) (askpass : string) : M unit :=
  modify (emit (EvSpawn argv askpass)).

(** Attaching a source gives it the next id; ids are never 0. *)
Definition attach (secs : option Z) (due : Z) (cb : callback) : M Z := fun w =>
  (next_id w,
   mkWorld (up w) (oracle w) (ticks w) (now w)
           (sources w ++ [mkSource (next_id w) secs due cb]) (next_id w + 1)
           (inflight w) (next_task w) (shown w) (sensitive w) (settings w)
           (trace w)).

Definition g_idle_add (cb : callback) : M Z :=
  fun w => attach None (now w) cb w.

(** [g_timeout_add_seconds (interval, cb, up)], [interval] a [guint]: first
    due [interval] seconds from now. *)
Definition g_timeout_add_seconds (secs : Z) (cb : callback) : M Z :=
  fun w => attach (Some secs) (now w + secs) cb w.

Definition g_source_remove (tag : Z) : M unit :=
  modify (with_sources (List.filter (fun s => negb (src_id s =? tag)))).

(** [gtk_button_new]: a new widget is hidden and sensitive. *)
Definition gtk_button_new_plugin : M unit := fun w =>
  (tt, mkWorld (up w) (oracle w) (ticks w) (now w) (sources w) (next_id w)
               (inflight w) (next_task w) false true (settings w)
               (trace w)).

Definition gtk_widget_show_all_plugin : M unit := fun w =>
  (tt, mkWorld (up w) (oracle w) (ticks w) (now w) (sources w) (next_id w)
               (inflight w) (next_task w) true (sensitive w) (settings w)
               (trace w)).

Definition gtk_widget_hide_plugin : M unit := fun w =>
  (tt, mkWorld (up w) (oracle w) (ticks w) (now w) (sources w) (next_id w)
               (inflight w) (next_task w) false (sensitive w) (settings w)
               (trace w)).

Definition gtk_widget_set_sensitive_plugin (b : bool) : M unit := fun w =>
  (tt, mkWorld (up w) (oracle w) (ticks w) (now w) (sources w) (next_id w)
               (inflight w) (next_task w) (shown w) b (settings w)
               (trace w)).

Definition config_setting_lookup_int_Interval : M (option Z) :=
  fun w => (settings w, w).

Definition config_group_set_int_Interval (v : Z) : M unit := fun w =>
  (tt, mkWorld (up w) (oracle w) (ticks w) (now w) (sources w) (next_id w)
               (inflight w) (next_task w) (shown w) (sensitive w) (Some v)
               (trace w)).

(** ** The plug-in *)

(** [3600L]: the product with the [int] interval is a [long], taken to be
    64 bits wide, so it is exact before its conversion to [guint]. *)
Definition SECS_PER_HOUR : Z := 3600.

Definition cmd_hostname : string := "hostname -I | grep -q \\.".
Definition cmd_have_ntpd : string := "test -e /usr/sbin/ntpd".
Definition cmd_ntpq : string := "ntpq -p | grep -q ^\*".
Definition cmd_timedatectl : string :=
  ("timedatectl status | grep -q "
     ++ String dquote ("synchronized: yes" ++ String dquote EmptyString))%string.
Definition cmd_is_pi : string := "raspi-config nonint is_pi".
Definition cmd_piwiz : string := "ps ax | grep -v grep | grep -q piwiz".

Definition msg_no_network : string :=
  "No network connection - cannot install updates.".
Definition msg_clock : string :=
  "Clock not synchronised - cannot install updates. Try again in a few minutes.".
Definition msg_updates : string :=
  ("Updates are available"
     ++ String newline "Click the update icon to install")%string.

Definition get {A} (f : UpdaterPlugin -> A) : M A := fun w => (f (up w), w).
Definition set (f : UpdaterPlugin -> UpdaterPlugin) : M unit :=
  modify (with_up f).

(** *** Utility functions *)

Definition net_available : M bool :=
  status <- system cmd_hostname ;;
  ret (status =? 0).

Definition clock_synced : M bool :=
  have_ntpd <- system cmd_have_ntpd ;;
  if have_ntpd =? 0 then
    status <- system cmd_ntpq ;;
    ret (status =? 0)
  else
    status <- system cmd_timedatectl ;;
    ret (status =? 0).

(** *** Handlers for the asynchronous check *)

Definition check_for_updates : M unit :=
  net <- net_available ;;
  if negb net then
    DEBUG "No network connection - update check failed" []
  else
    DEBUG "Checking for updates" [] ;;
    g_thread_new.

Definition refresh_update_cache : M unit :=
  task <- pk_task_new ;;
  pk_client_refresh_cache_async task.

Definition refresh_cache_done (task : nat) (res : Finish) : M unit :=
  match res with
  | Failed message =>
      DEBUG "Error updating cache - %s" [ArgS message]
  | Finished _ =>
      DEBUG "Cache updated - comparing versions" [] ;;
      pk_client_get_updates_async task
  end.

Definition filter_fn (package : PkPackage) : bool :=
  match strstr (pk_package_get_arch package) "amd64" with
  | Some _ => false
  | None => true
  end.

Definition update_icon (hide : bool) : M unit :=
  n <- get n_updates ;;
  if negb (n =? 0) && negb hide then
    gtk_widget_show_all_plugin ;;
    gtk_widget_set_sensitive_plugin true
  else
    gtk_widget_hide_plugin ;;
    gtk_widget_set_sensitive_plugin false.

Definition check_updates_done (task : nat) (res : Finish) : M unit :=
  match res with
  | Failed message =>
      DEBUG "Error comparing versions - %s" [ArgS message]
  | Finished results =>
      not_pi <- system cmd_is_pi ;;
      let fsack :=
        if negb (not_pi =? 0) then pk_package_sack_filter results filter_fn
        else results in
      set (set_n_updates (int_of_Z (pk_package_sack_get_size fsack))) ;;
      n <- get n_updates ;;
      (if 0 <? n then
         DEBUG "Check complete - %d updates available" [ArgD n] ;;
         set (set_ids (Some (pk_package_sack_get_ids fsack))) ;;
         lxpanel_notify (tr msg_updates)
       else
         DEBUG "Check complete - no updates available" [] ;;
         set (set_ids None)) ;;
      update_icon false
  end.

(** *** Launching the installer *)

Definition message (msg : string) (prog : Z) : M unit :=
  modify (emit (EvMessage msg prog)).

Definition launch_installer : M unit :=
  g_spawn_async ["sudo"; "lxplug-updater-install"] "/usr/lib/lxplugins/pwdlpu.sh".

Definition install_updates : M unit :=
  net <- net_available ;;
  if negb net then message (tr msg_no_network) (-3)
  else
    synced <- clock_synced ;;
    if negb synced then message (tr msg_clock) (-3)
    else launch_installer.

(** *** The dialog listing the updates *)

Definition handle_close_update_dialog : M unit :=
  dlg <- get update_dlg ;;
  when dlg (set (set_update_dlg false)).

Definition handle_close_and_install : M unit :=
  dlg <- get update_dlg ;;
  when dlg (set (set_update_dlg false)) ;;
  net <- net_available ;;
  if net then
    synced <- clock_synced ;;
    when synced launch_installer
  else ret tt.

(** *** Timer handlers: the result is what the callback returns to GLib *)

Definition init_check : M bool :=
  update_icon true ;;
  wizard <- system cmd_piwiz ;;
  if wizard =? 0 then ret false
  else
    net <- net_available ;;
    (if net then check_for_updates
     else
       DEBUG "No network connection - polling..." [] ;;
       _ <- g_timeout_add_seconds 60 cb_net_check ;;
       ret tt) ;;
    ret false.

Definition net_check : M bool :=
  net <- net_available ;;
  if net then
    check_for_updates ;;
    ret false
  else
    DEBUG "No network connection - polling..." [] ;;
    ret true.

Definition periodic_check : M bool :=
  check_for_updates ;;
  ret true.

(** [show_updates] builds the dialog; only the fact that it now exists is
    kept, its rows are widget state. *)
Definition show_updates : M unit :=
  set (set_update_dlg true).

(** *** Plug-in functions *)

Definition updater_constructor : M unit :=
  set (fun _ => mkUp false false 0 None 0 0) ;;
  gtk_button_new_plugin ;;
  gtk_widget_show_all_plugin ;;
  _ <- g_idle_add cb_init_check ;;
  found <- config_setting_lookup_int_Interval ;;
  (match found with
   | Some hours => set (set_interval hours)
   | None => set (set_interval 24)
   end) ;;
  hours <- get interval ;;
  if negb (hours =? 0) then
    id <- g_timeout_add_seconds (guint_of_Z (hours * SECS_PER_HOUR))
            cb_periodic_check ;;
    set (set_timer id)
  else
    set (set_timer 0).

Definition updater_control_msg (cmd : string) : M bool :=
  if strncmp_eq cmd "check" 5 then
    update_icon true ;;
    check_for_updates ;;
    ret true
  else ret false.

Definition updater_apply_configuration : M unit :=
  hours <- get interval ;;
  config_group_set_int_Interval hours ;;
  old <- get timer ;;
  when (negb (old =? 0)) (g_source_remove old) ;;
  if negb (hours =? 0) then
    id <- g_timeout_add_seconds (guint_of_Z (hours * SECS_PER_HOUR))
            cb_periodic_check ;;
    set (set_timer id)
  else
    set (set_timer 0).

(** ** The main loop

    What can happen next: time passes, the loop calls a source that is
    ready, a thread or a PackageKit request completes, or the user or the
    panel acts.  Callbacks run to completion, one at a time. *)

Inductive Action :=
| Tick (dt : Z)
| Dispatch (id : Z)
| RunThread
| RefreshCacheFinished (task : nat) (res : Finish)
| GetUpdatesFinished (task : nat) (res : Finish)
| ControlMsg (cmd : string)
| MenuShowUpdates
| MenuInstall
| DialogClose
| DialogInstall
| Configure (hours : Z).

Definition run_callback (cb : callback) : M bool :=
  match cb with
  | cb_init_check => init_check
  | cb_net_check => net_check
  | cb_periodic_check => periodic_check
  end.

Definition ready (s : Source) (w : World) : bool :=
  match src_secs s with
  | None => true
  | Some _ => src_due s <=? now w
  end.

(** A timeout source whose callback returned TRUE is due again one period
    after the dispatch. *)
Definition rearm (id t : Z) (s : Source) : Source :=
  match src_secs s with
  | Some secs =>
      if src_id s =? id then mkSource (src_id s) (Some secs) (t + secs) (src_cb s)
      else s
  | None => s
  end.

Definition dispatch (id : Z) (w : World) : option World :=
  match List.find (fun s => src_id s =? id) (sources w) with
  | Some s =>
      if ready s w then
        let (again, w1) := run_callback (src_cb s) (emit (EvDispatch (src_cb s)) w) in
        Some (if again : bool then with_sources (List.map (rearm id (now w1))) w1
              else exec (g_source_remove id) w1)
      else None
  | None => None
  end.

Fixpoint remove_first (p : Pending) (l : list Pending) : list Pending :=
  match l with
  | [] => []
  | q :: l' => if Pending_eqb p q then l' else q :: remove_first p l'
  end.

Definition complete {A} (p : Pending) (c : M A) (w : World) : option World :=
  if List.existsb (Pending_eqb p) (inflight w)
  then Some (exec c (with_inflight (remove_first p) w))
  else None.

Definition step (a : Action) (w : World) : option World :=
  match a with
  | Tick dt => if 0 <=? dt then Some (with_now (now w + dt) w) else None
  | Dispatch id => dispatch id w
  | RunThread => complete PThread refresh_update_cache w
  | RefreshCacheFinished task res =>
      complete (PRefreshCache task) (refresh_cache_done task res) w
  | GetUpdatesFinished task res =>
      complete (PGetUpdates task) (check_updates_done task res) w
  | ControlMsg cmd => Some (exec (updater_control_msg cmd) w)
  | MenuShowUpdates => Some (exec show_updates w)
  | MenuInstall => Some (exec install_updates w)
  | DialogClose => Some (exec handle_close_update_dialog w)
  | DialogInstall => Some (exec handle_close_and_install w)
  | Configure hours =>
      Some (exec updater_apply_configuration (with_up (set_interval hours) w))
  end.

Fixpoint run (acts : list Action) (w : World) : option World :=
  match acts with
  | [] => Some w
  | a :: acts' =>
      match step a w with
      | Some w1 => run acts' w1
      | None => None
      end
  end.

(** The world before the panel loads the plug-in. *)
Definition boot (orc : nat -> string -> Z) (cfg : option Z) : World :=
  mkWorld (mkUp false false 0 None 0 0) orc 0%nat 0 [] 1 [] 0%nat false false
          cfg [].

Definition start (orc : nat -> string -> Z) (cfg : option Z) : World :=
  exec updater_constructor (boot orc cfg).

(** ** Reading the trace *)

Definition is_spawn (e : Event) : bool :=
  match e with EvSpawn _ _ => true | _ => false end.
Definition is_message (e : Event) : bool :=
  match e with EvMessage _ _ => true | _ => false end.
Definition is_notify (e : Event) : bool :=
  match e with EvNotify _ => true | _ => false end.
Definition is_backend (e : Event) : bool :=
  match e with
  | EvThreadNew | EvRefreshCache _ | EvGetUpdates _ => true
  | _ => false
  end.
Definition is_dispatch_of (cb : callback) (e : Event) : bool :=
  match e with EvDispatch c => callback_eqb c cb | _ => false end.

Definition count (f : Event -> bool) (w : World) : nat :=
  List.length (List.filter f (trace w)).

(** ** The installer

    [src/installer.c], the program the plug-in spawns under sudo: one
    dialog, one PackageKit task taken through cache refresh, update query
    and update, and a main loop that ends with [gtk_main_quit].  Its world
    is a [State] of its own; a fraction of the progress bar is kept as the
    percentage it was computed from. *)

Module Installer.

Inductive PkRoleEnum :=
| PK_ROLE_ENUM_REFRESH_CACHE
| PK_ROLE_ENUM_RESOLVE
| PK_ROLE_ENUM_UPDATE_PACKAGES
| PK_ROLE_ENUM_GET_DETAILS
| PK_ROLE_ENUM_INSTALL_PACKAGES
| PK_ROLE_ENUM_other.

Inductive PkStatusEnum :=
| PK_STATUS_ENUM_LOADING_CACHE
| PK_STATUS_ENUM_DOWNLOAD
| PK_STATUS_ENUM_INSTALL
| PK_STATUS_ENUM_other.

Record PkProgress := mkProgress {
  pk_progress_get_role : PkRoleEnum;
  pk_progress_get_status : PkStatusEnum;
  pk_progress_get_percentage : Z
}.

(** What a completed request hands to [error_handler]: a [GError], results
    that carry an error code with its details, or clean results. *)
Inductive Outcome :=
| GErr (message : string)
| PkErr (details : string)
| Clean (results : PkPackageSack).

(** The widgets of the dialog that the code sets. *)
Record Dialog := mkDialog {
  msg_msg : string;             (* text of the label *)
  msg_btn : bool;               (* OK button visible *)
  msg_pb : bool;                (* progress bar visible *)
  pb_percent : option Z;        (* last fraction set, times 100 *)
  pb_pulses : nat;              (* calls of gtk_progress_bar_pulse *)
  dlg_shown : bool
}.

Inductive Request :=
| ReqRefreshCache (task : nat)
| ReqGetUpdates (task : nat)
| ReqUpdatePackages (task : nat) (ids : list string).

Record State := mkState {
  msg_dlg : option Dialog;      (* NULL or the dialog *)
  oracle : nat -> string -> Z;
  ticks : nat;
  now : Z;
  idle : bool;                  (* refresh_cache waits as an idle source *)
  close_due : list Z;           (* due times of the close_end timeouts *)
  requests : list Request;      (* PackageKit requests outstanding *)
  next_task : nat;
  quits : nat;                  (* calls of gtk_main_quit *)
  log : list Request            (* PackageKit requests made, newest first *)
}.

Definition IM (A : Type) : Type := State -> A * State.

Definition ret {A} (a : A) : IM A := fun s => (a, s).

Definition bind {A B} (c : IM A) (k : A -> IM B) : IM B :=
  fun s => let (a, s1) := c s in k a s1.

Definition exec {A} (c : IM A) (s : State) : State := snd (c s).
Definition eval {A} (c : IM A) (s : State) : A := fst (c s).

Declare Scope inst_scope.
Notation "x <- c ;; k" := (bind c (fun x => k))
  (at level 61, c at next level, right associativity) : inst_scope.
Notation "c ;; k" := (bind c (fun _ => k))
  (at level 61, right associativity) : inst_scope.
Local Open Scope inst_scope.

Definition set_dlg (d : option Dialog) : IM unit := fun s =>
  (tt, mkState d (oracle s) (ticks s) (now s) (idle s) (close_due s)
               (requests s) (next_task s) (quits s) (log s)).

Definition get_dlg : IM (option Dialog) := fun s => (msg_dlg s, s).

Definition system (cmd : string) : IM Z := fun s =>
  (oracle s (ticks s) cmd,
   mkState (msg_dlg s) (oracle s) (S (ticks s)) (now s) (idle s) (close_due s)
           (requests s) (next_task s) (quits s) (log s)).

Definition pk_task_new : IM nat := fun s =>
  (next_task s,
   mkState (msg_dlg s) (oracle s) (ticks s) (now s) (idle s) (close_due s)
           (requests s) (S (next_task s)) (quits s) (log s)).

(** The three asynchronous calls: the request is outstanding until its
    callback is delivered. *)
Definition request (r : Request) : IM unit := fun s =>
  (tt, mkState (msg_dlg s) (oracle s) (ticks s) (now s) (idle s) (close_due s)
               (requests s ++ [r]) (next_task s) (quits s) (r :: log s)).

Definition g_timeout_add_seconds_close_end (secs : Z) : IM unit := fun s =>
  (tt, mkState (msg_dlg s) (oracle s) (ticks s) (now s) (idle s)
               (close_due s ++ [now s + secs])
               (requests s) (next_task s) (quits s) (log s)).

Definition gtk_main_quit : IM unit := fun s =>
  (tt, mkState (msg_dlg s) (oracle s) (ticks s) (now s) (idle s) (close_due s)
               (requests s) (next_task s) (S (quits s)) (log s)).

(** The dialog as the builder file gives it, before [message] sets it. *)
Definition built : Dialog := mkDialog EmptyString false false None 0 false.

Definition gtk_label_set_text (msg : string) (d : Dialog) : Dialog :=
  mkDialog msg (msg_btn d) (msg_pb d) (pb_percent d) (pb_pulses d) (dlg_shown d).
Definition set_visible_btn (b : bool) (d : Dialog) : Dialog :=
  mkDialog (msg_msg d) b (msg_pb d) (pb_percent d) (pb_pulses d) (dlg_shown d).
Definition set_visible_pb (b : bool) (d : Dialog) : Dialog :=
  mkDialog (msg_msg d) (msg_btn d) b (pb_percent d) (pb_pulses d) (dlg_shown d).
Definition gtk_progress_bar_set_fraction (prog : Z) (d : Dialog) : Dialog :=
  mkDialog (msg_msg d) (msg_btn d) (msg_pb d) (Some prog) (pb_pulses d)
           (dlg_shown d).
Definition gtk_progress_bar_pulse (d : Dialog) : Dialog :=
  mkDialog (msg_msg d) (msg_btn d) (msg_pb d) (pb_percent d) (S (pb_pulses d))
           (dlg_shown d).
Definition gtk_widget_show (d : Dialog) : Dialog :=
  mkDialog (msg_msg d) (msg_btn d) (msg_pb d) (pb_percent d) (pb_pulses d) true.

(** *** Progress / error box *)

(** The connection of [quit] to the OK button is widget state and not kept:
    a click on the visible button is the event [ClickOk]. *)
Definition message (msg : string) (prog : Z) : IM unit :=
  dlg <- get_dlg ;;
  let d0 := match dlg with
            | None => gtk_label_set_text msg built
            | Some d => gtk_label_set_text msg d
            end in
  let d1 := set_visible_pb (-2 <? prog) (set_visible_btn (prog =? -3) d0) in
  let d2 := if 0 <=? prog then gtk_progress_bar_set_fraction prog d1
            else if prog =? -1 then gtk_progress_bar_pulse d1
            else d1 in
  set_dlg (Some (gtk_widget_show d2)).

Definition quit : IM bool :=
  dlg <- get_dlg ;;
  (match dlg with
   | Some _ => set_dlg None
   | None => ret tt
   end) ;;
  gtk_main_quit ;;
  ret false.

(** *** Helper for the asynchronous operations *)

Definition error_handler (o : Outcome) (desc : string)
  : IM (option PkPackageSack) :=
  match o with
  | GErr msg =>
      message ("Error " ++ desc ++ " - " ++ msg)%string (-3) ;;
      ret None
  | PkErr details =>
      message ("Error " ++ desc ++ " - " ++ details)%string (-3) ;;
      ret None
  | Clean results => ret (Some results)
  end.

(** *** Handlers for the asynchronous install sequence *)

Definition refresh_cache : IM bool :=
  message "Updating package data - please wait..." (-1) ;;
  task <- pk_task_new ;;
  request (ReqRefreshCache task) ;;
  ret false.

Definition compare_versions (task : nat) (o : Outcome) : IM unit :=
  results <- error_handler o "updating cache" ;;
  match results with
  | None => ret tt
  | Some _ =>
      message "Comparing versions - please wait..." (-1) ;;
      request (ReqGetUpdates task)
  end.

Definition filter_fn (package : PkPackage) : bool :=
  match strstr (pk_package_get_arch package) "amd64" with
  | Some _ => false
  | None => true
  end.

Definition start_install (task : nat) (o : Outcome) : IM unit :=
  results <- error_handler o "comparing versions" ;;
  match results with
  | None => ret tt
  | Some results =>
      not_pi <- system cmd_is_pi ;;
      let fsack :=
        if negb (not_pi =? 0) then pk_package_sack_filter results filter_fn
        else results in
      if 0 <? pk_package_sack_get_size fsack then
        message "Installing updates - please wait..." (-1) ;;
        request (ReqUpdatePackages task (pk_package_sack_get_ids fsack))
      else
        message "System is up to date" (-2) ;;
        g_timeout_add_seconds_close_end 2
  end.

Definition install_done (task : nat) (o : Outcome) : IM unit :=
  results <- error_handler o "installing packages" ;;
  match results with
  | None => ret tt
  | Some _ =>
      message "System is up to date" (-2) ;;
      g_timeout_add_seconds_close_end 2
  end.

Definition close_end : IM bool :=
  dlg <- get_dlg ;;
  (match dlg with
   | Some _ => set_dlg None
   | None => ret tt
   end) ;;
  gtk_main_quit ;;
  ret false.

Definition pulse : IM unit :=
  dlg <- get_dlg ;;
  match dlg with
  | Some d => set_dlg (Some (gtk_progress_bar_pulse d))
  | None => ret tt
  end.

Definition progress (p : PkProgress) : IM unit :=
  let role := pk_progress_get_role p in
  let status := pk_progress_get_status p in
  let loading :=
    match status with PK_STATUS_ENUM_LOADING_CACHE => true | _ => false end in
  dlg <- get_dlg ;;
  match dlg with
  | None => ret tt
  | Some _ =>
      match role with
      | PK_ROLE_ENUM_REFRESH_CACHE =>
          if loading
          then message "Updating package data - please wait..."
                       (pk_progress_get_percentage p)
          else pulse
      | PK_ROLE_ENUM_RESOLVE =>
          if loading
          then message "Finding package - please wait..."
                       (pk_progress_get_percentage p)
          else pulse
      | PK_ROLE_ENUM_UPDATE_PACKAGES =>
          if loading
          then message "Updating application - please wait..."
                       (pk_progress_get_percentage p)
          else pulse
      | PK_ROLE_ENUM_GET_DETAILS =>
          if loading
          then message "Reading package details - please wait..."
                       (pk_progress_get_percentage p)
          else pulse
      | PK_ROLE_ENUM_INSTALL_PACKAGES =>
          match status with
          | PK_STATUS_ENUM_INSTALL =>
              message ("Installing" ++ " package - please wait...")%string
                      (pk_progress_get_percentage p)
          | PK_STATUS_ENUM_DOWNLOAD =>
              message ("Downloading" ++ " package - please wait...")%string
                      (pk_progress_get_percentage p)
          | _ => pulse
          end
      | PK_ROLE_ENUM_other => ret tt
      end
  end.

(** *** Main window *)

(** The state [main] leaves to [gtk_main]: [refresh_cache] queued as an
    idle source, nothing else. *)
Definition main (orc : nat -> string -> Z) : State :=
  mkState None orc 0%nat 0 true [] [] 0%nat 0%nat [].

(** *** The installer's main loop *)

Inductive Event :=
| Idle                              (* the idle source is called *)
| Tick (dt : Z)
| CloseTimer                        (* a due close_end timeout is called *)
| Progress (p : PkProgress)         (* the request under way reports *)
| Finished (o : Outcome)            (* the oldest request completes *)
| ClickOk.                          (* the user clicks the OK button *)

Definition with_idle (b : bool) (s : State) : State :=
  mkState (msg_dlg s) (oracle s) (ticks s) (now s) b (close_due s)
          (requests s) (next_task s) (quits s) (log s).
Definition with_close_due (l : list Z) (s : State) : State :=
  mkState (msg_dlg s) (oracle s) (ticks s) (now s) (idle s) l
          (requests s) (next_task s) (quits s) (log s).
Definition with_requests (l : list Request) (s : State) : State :=
  mkState (msg_dlg s) (oracle s) (ticks s) (now s) (idle s) (close_due s)
          l (next_task s) (quits s) (log s).
Definition with_now (t : Z) (s : State) : State :=
  mkState (msg_dlg s) (oracle s) (ticks s) t (idle s) (close_due s)
          (requests s) (next_task s) (quits s) (log s).

Definition callback_of (r : Request) (o : Outcome) : IM unit :=
  match r with
  | ReqRefreshCache task => compare_versions task o
  | ReqGetUpdates task => start_install task o
  | ReqUpdatePackages task _ => install_done task o
  end.

(** The first timeout that is due, taken out of the list. *)
Fixpoint take_due (t : Z) (l : list Z) : option (list Z) :=
  match l with
  | [] => None
  | due :: l' =>
      if due <=? t then Some l'
      else option_map (cons due) (take_due t l')
  end.

(** Nothing is delivered once [gtk_main_quit] has been called. *)
Definition step (e : Event) (s : State) : option State :=
  if negb (quits s =? 0)%nat then None
  else
    match e with
    | Idle =>
        if idle s then Some (exec refresh_cache (with_idle false s)) else None
    | Tick dt => if 0 <=? dt then Some (with_now (now s + dt) s) else None
    | CloseTimer =>
        match take_due (now s) (close_due s) with
        | Some rest => Some (exec close_end (with_close_due rest s))
        | None => None
        end
    | Progress p =>
        match requests s with
        | _ :: _ => Some (exec (progress p) s)
        | [] => None
        end
    | Finished o =>
        match requests s with
        | r :: rest => Some (exec (callback_of r o) (with_requests rest s))
        | [] => None
        end
    | ClickOk =>
        match msg_dlg s with
        | Some d => if msg_btn d && dlg_shown d then Some (exec quit s) else None
        | None => None
        end
    end.

Fixpoint run (es : list Event) (s : State) : option State :=
  match es with
  | [] => Some s
  | e :: es' =>
      match step e s with
      | Some s1 => run es' s1
      | None => None
      end
  end.

End Installer.

(** * Vocabulary of the statements *)

(** The sack [check_updates_done] counts and publishes, its local [fsack]:
    the results as they are where [raspi-config nonint is_pi] exits 0, and
    the results filtered by [filter_fn] elsewhere. *)
Definition fsack_of (w : World) (results : PkPackageSack) : PkPackageSack :=
  if negb (eval (system cmd_is_pi) w =? 0)
  then pk_package_sack_filter results filter_fn
  else results.

(** How PackageKit can end a request.  [pk_task_generic_finish] either sets
    its [GError], or returns results; the results hold the packages that
    were reported and, when the backend reported a failure, an error code
    with its details ([pk_results_get_error_code]). *)
Inductive Completion :=
| WithGError (message : string)
| WithErrorCode (details : string) (packages : PkPackageSack)
| Succeeded (packages : PkPackageSack).

(** What the plug-in's two callbacks read of a completion: the [GError]
    and, of the results, the package sack.  Neither of them calls
    [pk_results_get_error_code]. *)
Definition as_plugin_reads (c : Completion) : Finish :=
  match c with
  | WithGError message => Failed message
  | WithErrorCode _ packages => Finished packages
  | Succeeded packages => Finished packages
  end.

(** What the installer's [error_handler] reads of it: the [GError], then
    the error code of the results, then the results. *)
Definition as_installer_reads (c : Completion) : Installer.Outcome :=
  match c with
  | WithGError message => Installer.GErr message
  | WithErrorCode details _ => Installer.PkErr details
  | Succeeded packages => Installer.Clean packages
  end.

(** The log lines that report an error. *)
Definition is_error_log (e : Event) : bool :=
  match e with
  | EvDebug fmt _ => String.prefix "Error" fmt
  | _ => false
  end.

(** What the panel shows of the plug-in: the count, the ids and whether
    the icon is visible. *)
Definition published (w : World) : Z * option (list string) * bool :=
  (n_updates (up w), ids (up w), shown w).



(** The source [init_check] adds at time [t] to call [net_check]. *)
Definition net_poll (id t : Z) : Source :=
  mkSource id (Some 60) (t + 60) cb_net_check.

(** Well-formed worlds: source ids are positive and below the next id to
    be given out, and the only source that calls [periodic_check] is the
    one whose id the plug-in holds in [timer]. *)
Definition wf (w : World) : Prop :=
  0 < next_id w
  /\ (forall s, In s (sources w) -> 0 < src_id s < next_id w)
  /\ (forall s, In s (sources w) ->
        src_cb s = cb_periodic_check -> src_id s = timer (up w)).

(** No source in the main loop calls [periodic_check]. *)
Definition no_periodic (w : World) : Prop :=
  forall s, In s (sources w) -> src_cb s <> cb_periodic_check.

(** Every source in the main loop calls [periodic_check]: [init_check] is
    not queued and nothing polls for the network. *)
Definition only_periodic (w : World) : Prop :=
  forall s, In s (sources w) -> src_cb s = cb_periodic_check.

(** Events other than a reconfiguration to a nonzero interval. *)
Definition keeps_interval_off (a : Action) : bool :=
  match a with
  | Configure hours => hours =? 0
  | _ => true
  end.

(** The calls of [periodic_check] the main loop has made so far. *)
Definition periodic_calls (w : World) : nat :=
  count (is_dispatch_of cb_periodic_check) w.

(** The timeout source [updater_apply_configuration] makes for an interval
    of [hours]: the seconds are what the [guint] parameter of
    [g_timeout_add_seconds] receives. *)
Definition periodic_source (id t hours : Z) : Source :=
  mkSource id (Some (guint_of_Z (hours * SECS_PER_HOUR)))
           (t + guint_of_Z (hours * SECS_PER_HOUR)) cb_periodic_check.

(** The longest interval, in hours, whose seconds fit a [guint]. *)
Definition MAX_HOURS : Z := 1193046.

(** What a re-armed source keeps. *)
Definition source_key (s : Source) : Z * callback := (src_id s, src_cb s).

(** Rounds of the wait: each lets [dt] seconds pass and has the main loop
    call the source [id]. *)
Fixpoint polls (id : Z) (dts : list Z) : list Action :=
  match dts with
  | [] => []
  | dt :: dts' => Tick dt :: Dispatch id :: polls id dts'
  end.

(** The plug-in waits for the network: source [id] calls [net_check] every
    60 seconds and is next due 60 seconds from now. *)
Definition waiting (id : Z) (w : World) : Prop :=
  List.find (fun s => src_id s =? id) (sources w) = Some (net_poll id (now w)).

(** The idle source the constructor adds. *)
Definition init_source : Source := mkSource 1 None 0 cb_init_check.

(** * Vocabulary of the further properties *)

(** [ids] and [n_updates] agree: no id array when nothing is pending, and
    otherwise at least [n_updates] ids. *)
Definition ids_coherent (u : UpdaterPlugin) : Prop :=
  match ids u with
  | None => n_updates u <= 0
  | Some l => 0 < n_updates u <= Z.of_nat (List.length l)
  end.

(** [timer] and [interval] agree with the main loop: with [timer] 0 the
    interval is 0 and no source calls [periodic_check]; otherwise [timer]
    is the id of a source that calls [periodic_check] every [interval]
    hours, the seconds taken as a [guint]. *)
Definition timer_coherent (w : World) : Prop :=
  if timer (up w) =? 0 then interval (up w) = 0 /\ no_periodic w
  else interval (up w) <> 0
       /\ exists due,
            List.find (fun s => src_id s =? timer (up w)) (sources w)
            = Some (mkSource (timer (up w))
                      (Some (guint_of_Z (interval (up w) * SECS_PER_HOUR)))
                      due cb_periodic_check).

(** The world can be reached from loading the plug-in. *)
Definition reachable (w : World) : Prop :=
  exists orc cfg acts, run acts (start orc cfg) = Some w.

Definition is_thread_new (e : Event) : bool :=
  match e with EvThreadNew => true | _ => false end.
Definition is_refresh (e : Event) : bool :=
  match e with EvRefreshCache _ => true | _ => false end.
Definition is_get_updates (e : Event) : bool :=
  match e with EvGetUpdates _ => true | _ => false end.

(** A network probe that passed. *)
Definition is_net_ok (e : Event) : bool :=
  match e with
  | EvSystem cmd status => String.eqb cmd cmd_hostname && (status =? 0)
  | _ => false
  end.

Definition is_pthread (p : Pending) : bool :=
  match p with PThread => true | _ => false end.
Definition is_prefresh (p : Pending) : bool :=
  match p with PRefreshCache _ => true | _ => false end.
Definition is_pget (p : Pending) : bool :=
  match p with PGetUpdates _ => true | _ => false end.

(** How many checks in flight are at a given stage. *)
Definition at_stage (f : Pending -> bool) (w : World) : nat :=
  List.length (List.filter f (inflight w)).

(** Every check in flight is accounted for: each thread made has either
    not run yet or has requested a cache refresh; each update query was
    made for a cache refresh that has completed; no thread was made
    without a network probe that passed. *)
Definition pipeline_ordered (w : World) : Prop :=
  (count is_thread_new w = count is_refresh w + at_stage is_pthread w)%nat
  /\ (count is_get_updates w + at_stage is_prefresh w <= count is_refresh w)%nat
  /\ (at_stage is_pget w <= count is_get_updates w)%nat
  /\ (count is_thread_new w <= count is_net_ok w)%nat.

(** The icon agrees with the plug-in's fields: sensitive when visible, and
    visible only with updates pending or before [init_check] has run. *)
Definition icon_coherent (w : World) : Prop :=
  sensitive w = shown w
  /\ (shown w = true ->
      n_updates (up w) <> 0
      \/ count (is_dispatch_of cb_init_check) w = 0%nat).

(** The events that are neither a dispatch nor a reconfiguration. *)
Definition plain (a : Action) : bool :=
  match a with
  | Dispatch _ | Configure _ => false
  | _ => true
  end.

(** The events that do not touch the icon. *)
Definition icon_plain (a : Action) : bool :=
  match a with
  | Dispatch _ | ControlMsg _ | GetUpdatesFinished _ (Finished _) => false
  | _ => true
  end.

(** The user asks for the installation. *)
Definition is_install (a : Action) : bool :=
  match a with MenuInstall | DialogInstall => true | _ => false end.
Definition is_menu_install (a : Action) : bool :=
  match a with MenuInstall => true | _ => false end.

(** A session of the installer in which every request succeeds, with
    [found] the answer to the update query; [wait] seconds pass before the
    closing timeout is called. *)
Definition clean_session (found : PkPackageSack) (updates : bool) (wait : Z)
  : list Installer.Event :=
  [Installer.Idle;
   Installer.Finished (Installer.Clean []);
   Installer.Finished (Installer.Clean found)]
  ++ (if updates then [Installer.Finished (Installer.Clean [])] else [])
  ++ [Installer.Tick wait; Installer.CloseTimer].

(** ** The installer's session *)

(** The requests a session makes, newest first: a cache refresh, then an
    update query, then an update of a list of ids that is not empty, all
    on one task. *)
Definition in_sequence (l : list Installer.Request) : Prop :=
  exists task,
    l = [Installer.ReqRefreshCache task]
    \/ l = [Installer.ReqGetUpdates task; Installer.ReqRefreshCache task]
    \/ exists ids,
         ids <> []
         /\ l = [Installer.ReqUpdatePackages task ids;
                 Installer.ReqGetUpdates task;
                 Installer.ReqRefreshCache task].

(** A progress report with a percentage PackageKit can give: -1 for
    unknown, or a value from 0 up. *)
Definition reports_validly (e : Installer.Event) : Prop :=
  match e with
  | Installer.Progress p => -1 <= Installer.pk_progress_get_percentage p
  | _ => True
  end.

(** Where a session can be. *)
Inductive phase (s : Installer.State) : Prop :=
| ph_idle :
    Installer.idle s = true -> Installer.log s = [] ->
    Installer.requests s = [] -> Installer.close_due s = [] ->
    Installer.msg_dlg s = None -> Installer.quits s = 0%nat -> phase s
| ph_busy (r : Installer.Request) (older : list Installer.Request)
          (d : Installer.Dialog) :
    Installer.idle s = false -> Installer.log s = r :: older ->
    in_sequence (r :: older) ->
    Installer.requests s = [r] -> Installer.close_due s = [] ->
    Installer.msg_dlg s = Some d -> Installer.msg_btn d = false ->
    Installer.dlg_shown d = true ->
    Installer.quits s = 0%nat -> phase s
| ph_error (d : Installer.Dialog) :
    Installer.idle s = false -> in_sequence (Installer.log s) ->
    Installer.requests s = [] -> Installer.close_due s = [] ->
    Installer.msg_dlg s = Some d -> Installer.msg_btn d = true ->
    Installer.msg_pb d = false -> Installer.dlg_shown d = true ->
    Installer.quits s = 0%nat -> phase s
| ph_done (d : Installer.Dialog) (due : Z) :
    Installer.idle s = false -> in_sequence (Installer.log s) ->
    Installer.requests s = [] -> Installer.close_due s = [due] ->
    due <= Installer.now s + 2 ->
    Installer.msg_dlg s = Some d -> Installer.msg_btn d = false ->
    Installer.msg_msg d = "System is up to date" ->
    Installer.quits s = 0%nat -> phase s
| ph_quit :
    Installer.idle s = false -> in_sequence (Installer.log s) ->
    Installer.requests s = [] -> Installer.msg_dlg s = None ->
    Installer.quits s = 1%nat -> phase s.

(** The box [error_handler] shows for a failure of the step [desc]: the
    text with the failure's own message, the OK button and no progress
    bar, while nothing else of the state changes. *)
Definition shows_error (desc text : string) (s s' : Installer.State) : Prop :=
  (exists d, Installer.msg_dlg s' = Some d
     /\ Installer.msg_msg d = ("Error " ++ desc ++ " - " ++ text)%string
     /\ Installer.msg_btn d = true /\ Installer.msg_pb d = false
     /\ Installer.dlg_shown d = true)
  /\ Installer.log s' = Installer.log s
  /\ Installer.requests s' = Installer.requests s
  /\ Installer.close_due s' = Installer.close_due s
  /\ Installer.quits s' = Installer.quits s
  /\ Installer.ticks s' = Installer.ticks s.

(** The failure text of an outcome, if it is one. *)
Definition failure_text (o : Installer.Outcome) : option string :=
  match o with
  | Installer.GErr msg => Some msg
  | Installer.PkErr details => Some details
  | Installer.Clean _ => None
  end.

(** The OK button and the progress bar are not visible together. *)
Definition one_control (s : Installer.State) : Prop :=
  match Installer.msg_dlg s with
  | Some d => (Installer.msg_btn d && Installer.msg_pb d) = false
  | None => True
  end.

(** * Worlds and runs used as examples *)

(** A machine whose probes always answer the same
    way.  It has no ntpd, so the clock is asked of timedatectl. *)
Definition exit_status (ok : bool) : Z := if ok then 0 else 1.

Definition machine (pi net synced wizard : bool) : nat -> string -> Z :=
  fun _ cmd =>
    if String.eqb cmd cmd_is_pi then exit_status pi
    else if String.eqb cmd cmd_hostname then exit_status net
    else if String.eqb cmd cmd_timedatectl then exit_status synced
    else if String.eqb cmd cmd_piwiz then exit_status wizard
    else 1.

(** An oracle answering from a list, one entry per call, then 1. *)
Definition script (answers : list Z) : nat -> string -> Z :=
  fun n _ => List.nth n answers 1.

Definition pkg_foo : PkPackage := mkPkg "foo" "1.2" "amd64" EmptyString.
Definition pkg_bar : PkPackage := mkPkg "bar" "3.0" "armhf" EmptyString.

(** A running plug-in: no updates known, timer armed for 24 hours. *)
Definition w_online : World := start (machine true true true false) None.
Definition w_offline : World := start (machine true false true false) None.
Definition w_unsynced : World := start (machine true true false false) None.

(** A plug-in with one check in flight: started at load time, its thread
    has run and the cache refresh is outstanding. *)
Definition w_busy : World :=
  match run [Dispatch 1; RunThread] w_online with
  | Some w => w
  | None => w_online
  end.

(** A desktop PC (not a Pi) after a first check that found [foo] for amd64
    and [bar] for armhf. *)
Definition w_pc : World := start (machine false true true false) None.

Definition w_has_updates : World :=
  match run [Dispatch 1; RunThread;
             RefreshCacheFinished 0 (Finished []);
             GetUpdatesFinished 0 (Finished [pkg_foo; pkg_bar])] w_pc with
  | Some w => w
  | None => w_pc
  end.

(** The same two packages reported again by a second check. *)
Definition recheck : list Action :=
  [ControlMsg "check"; RunThread;
   RefreshCacheFinished 1 (Finished []);
   GetUpdatesFinished 1 (Finished [pkg_foo; pkg_bar])].

(** The same PC a day later: [bar] is still published, the periodic timer
    has started a second check and its cache refresh is outstanding. *)
Definition w_rechecking : World :=
  match run [Tick 86400; Dispatch 2; RunThread] w_has_updates with
  | Some w => w
  | None => w_has_updates
  end.

(** A request that the backend fails: no [GError], results with an error
    code and no packages. *)
Definition failed_request : Completion :=
  WithErrorCode "could not get lock" [].

(** The second check with both of its requests failed that way. *)
Definition failed_check : list Action :=
  [RefreshCacheFinished 1 (as_plugin_reads failed_request);
   GetUpdatesFinished 1 (as_plugin_reads failed_request)].

(** A plug-in loaded with the default 24 hours, 1000 seconds later, as the
    configuration dialog closes with [hours] entered. *)
Definition w_reconfigure (hours : Z) : World :=
  with_up (set_interval hours) (with_now 1000 w_online).

(** The wizard is not running; the network is down at load time and at the
    first two polls, and up from the third. *)
Definition orc_late_network : nat -> string -> Z := script [1; 1; 1; 1; 0; 0].

(** ** Further examples *)

(** Updates are pending and the network has gone: every probe after the
    first check fails. *)
Definition w_unplugged : World :=
  match run [Dispatch 1; RunThread;
             RefreshCacheFinished 0 (Finished []);
             GetUpdatesFinished 0 (Finished [pkg_foo; pkg_bar])]
            (start (script [1; 0; 0; 1]) None) with
  | Some w => w
  | None => w_offline
  end.

(** The default timer has just become due. *)
Definition w_due : World := with_now 86400 w_online.

(** The update list dialog is open. *)
Definition w_dialog : World := exec show_updates w_online.

(** A session of the installer on a PC: the cache is refreshed, [foo] and
    [bar] are found, the update reports 40 percent and completes, and the
    installer closes. *)
Definition session_updates : list Installer.Event :=
  [Installer.Idle;
   Installer.Finished (Installer.Clean []);
   Installer.Finished (Installer.Clean [pkg_foo; pkg_bar]);
   Installer.Progress
     (Installer.mkProgress Installer.PK_ROLE_ENUM_UPDATE_PACKAGES
        Installer.PK_STATUS_ENUM_LOADING_CACHE 40);
   Installer.Finished (Installer.Clean []);
   Installer.Tick 2;
   Installer.CloseTimer].

(** A session in which the cache refresh fails. *)
Definition session_failure : list Installer.Event :=
  [Installer.Idle; Installer.Finished (Installer.GErr "no route to host")].

Definition s_pc : Installer.State :=
  Installer.main (machine false true true false).

Definition s_failed : Installer.State :=
  match Installer.run session_failure s_pc with
  | Some s => s
  | None => s_pc
  end.

(** * Proof support *)

Ltac io_unfold :=
  unfold exec, eval, count,
    install_updates, handle_close_and_install, handle_close_update_dialog,
    launch_installer, message, check_for_updates, refresh_update_cache,
    refresh_cache_done, check_updates_done, update_icon,
    init_check, net_check, periodic_check, show_updates,
    updater_control_msg, updater_apply_configuration, updater_constructor,
    net_available, clock_synced,
    g_spawn_async, g_thread_new, pk_task_new, pk_client_refresh_cache_async,
    pk_client_get_updates_async, lxpanel_notify, DEBUG, system,
    g_timeout_add_seconds, g_idle_add, attach, g_source_remove,
    gtk_button_new_plugin, gtk_widget_show_all_plugin, gtk_widget_hide_plugin,
    gtk_widget_set_sensitive_plugin, config_setting_lookup_int_Interval,
    config_group_set_int_Interval,
    get, set, when, modify, bind, ret, emit, with_up, with_inflight,
    with_sources, with_now in *.

Ltac io := io_unfold; cbn in *.

(** Uses the probe results assumed so far and splits on the conditions the
    code tests, closing the branches the assumptions exclude. *)
Ltac probe1 :=
  match goal with
  | H : (_ =? _) = _ |- _ => rewrite H in *
  | |- context [if ?c then _ else _] => destruct c eqn:?
  | H : context [if ?c then _ else _] |- _ => destruct c eqn:?
  end.

Ltac probes := intros; repeat (probe1; cbn in *); try discriminate.

(** * Integers and strings *)

Lemma guint_of_Z_small z : 0 <= z < 2 ^ 32 -> guint_of_Z z = z.
Proof. intros H. unfold guint_of_Z. now apply Z.mod_small. Qed.

Lemma prefix_app needle s :
  String.prefix needle s = true <-> exists post, s = (needle ++ post)%string.
Proof.
  revert s. induction needle as [|c needle IH]; intros s; simpl.
  - split; [intros _; now exists s | intros _; now destruct s].
  - destruct s as [|d s]; simpl.
    + split; [discriminate | intros [post H]; discriminate].
    + destruct (Ascii.ascii_dec c d) as [->|ne].
      * rewrite IH. split; intros [post H]; exists post.
        -- now rewrite H.
        -- now injection H.
      * split; [discriminate|].
        intros [post H]. injection H as H1 _. congruence.
Qed.

Lemma strstr_occurs haystack needle :
  strstr haystack needle <> None <-> occurs_in needle haystack.
Proof.
  induction haystack as [|c h IH]; cbn [strstr].
  - destruct (String.prefix needle EmptyString) eqn:P.
    + split; [intros _ | intros _; discriminate].
      apply prefix_app in P as [post H]. exists EmptyString, post. exact H.
    + split; [congruence|].
      intros [pre [post H]]. exfalso.
      destruct pre; simpl in H.
      * assert (String.prefix needle EmptyString = true)
          by (apply prefix_app; now exists post).
        congruence.
      * discriminate.
  - destruct (String.prefix needle (String c h)) eqn:P.
    + split; [intros _ | intros _; discriminate].
      apply prefix_app in P as [post H]. exists EmptyString, post. exact H.
    + rewrite IH. split.
      * intros [pre [post H]]. exists (String c pre), post. simpl. now rewrite H.
      * intros [pre [post H]]. destruct pre as [|d pre]; simpl in H.
        -- assert (String.prefix needle (String c h) = true)
             by (apply prefix_app; now exists post).
           congruence.
        -- injection H as _ H. now exists pre, post.
Qed.

(** * The availability gate *)

(** C1. [install_updates] behind its two gates: a failed network probe shows
    the no-network box and spawns nothing; a passed network probe followed
    by a failed clock probe shows the clock box and spawns nothing; two
    passed probes spawn the installer under sudo exactly once and show no
    box. *)
Theorem install_updates_gated (w : World) :
  let w' := exec install_updates w in
  let w1 := exec net_available w in
  (eval net_available w = false ->
     hd_error (trace w') = Some (EvMessage msg_no_network (-3))
     /\ count is_message w' = S (count is_message w)
     /\ count is_spawn w' = count is_spawn w)
  /\ (eval net_available w = true -> eval clock_synced w1 = false ->
     hd_error (trace w') = Some (EvMessage msg_clock (-3))
     /\ count is_message w' = S (count is_message w)
     /\ count is_spawn w' = count is_spawn w)
  /\ (eval net_available w = true -> eval clock_synced w1 = true ->
     hd_error (trace w')
       = Some (EvSpawn ["sudo"; "lxplug-updater-install"]
                       "/usr/lib/lxplugins/pwdlpu.sh")
     /\ count is_spawn w' = S (count is_spawn w)
     /\ count is_message w' = count is_message w).
Proof.
  io. repeat split; probes; reflexivity.
Qed.

Lemma install_updates_gated_witness :
  (eval net_available w_offline = false
   /\ count is_message (exec install_updates w_offline) = 1%nat
   /\ count is_spawn (exec install_updates w_offline) = 0%nat)
  /\ (eval clock_synced (exec net_available w_unsynced) = false
   /\ count is_message (exec install_updates w_unsynced) = 1%nat
   /\ count is_spawn (exec install_updates w_unsynced) = 0%nat)
  /\ (eval clock_synced (exec net_available w_online) = true
   /\ count is_message (exec install_updates w_online) = 0%nat
   /\ count is_spawn (exec install_updates w_online) = 1%nat).
Proof.
  destruct (install_updates_gated w_offline) as [A _].
  destruct (install_updates_gated w_unsynced) as [_ [B _]].
  destruct (install_updates_gated w_online) as [_ [_ C]].
  specialize (A eq_refl).
  specialize (B eq_refl eq_refl).
  specialize (C eq_refl eq_refl).
  cbv zeta in A, B, C.
  destruct A as [_ [A1 A2]], B as [_ [B1 B2]], C as [_ [C1 C2]].
  repeat split; solve [reflexivity | assumption].
Defined.

(** C10. The install button of the update list dialog: when either gate
    fails nothing is spawned and no box is shown, whereas the menu entry
    [install_updates] shows one box in the same situation. *)
Theorem dialog_install_fails_silently (w : World) :
  eval net_available w = false
  \/ eval clock_synced (exec net_available w) = false ->
  let w' := exec handle_close_and_install w in
  count is_spawn w' = count is_spawn w
  /\ count is_message w' = count is_message w
  /\ update_dlg (up w') = false
  /\ count is_message (exec install_updates w) = S (count is_message w).
Proof.
  io. destruct (update_dlg (up w)) eqn:D; cbn;
    (intros [H | H]; probes; rewrite ?D; repeat split; reflexivity).
Qed.

Lemma dialog_install_fails_silently_witness :
  count is_spawn (exec handle_close_and_install w_unsynced) = 0%nat
  /\ count is_message (exec handle_close_and_install w_unsynced) = 0%nat
  /\ count is_message (exec install_updates w_unsynced) = 1%nat.
Proof.
  destruct (dialog_install_fails_silently w_unsynced (or_intror eq_refl))
    as [A [B [_ C]]].
  repeat split; assumption.
Defined.

(** * The update check *)

(** C4. A check whose network probe fails touches nothing: no thread and no
    PackageKit request is made, nothing is in flight that was not before,
    and the plug-in's fields, [n_updates] and [ids] among them, keep their
    values. *)
Theorem check_without_network (w : World) :
  eval net_available w = false ->
  let w' := exec check_for_updates w in
  count is_backend w' = count is_backend w
  /\ inflight w' = inflight w
  /\ up w' = up w
  /\ n_updates (up w') = n_updates (up w)
  /\ ids (up w') = ids (up w)
  /\ hd_error (trace w')
     = Some (EvDebug "No network connection - update check failed" []).
Proof.
  io. probes. repeat split; try reflexivity; now destruct (up w).
Qed.

Lemma check_without_network_witness :
  count is_backend (exec check_for_updates w_offline) = 0%nat
  /\ inflight (exec check_for_updates w_offline) = [].
Proof.
  destruct (check_without_network w_offline eq_refl) as [A [B _]].
  split; assumption.
Defined.

Lemma Pending_eqb_eq (p q : Pending) : Pending_eqb p q = true -> p = q.
Proof.
  destruct p, q; cbn; intros H; try discriminate; try reflexivity;
    apply Nat.eqb_eq in H; now subst.
Qed.

Lemma existsb_Pending (p : Pending) (l : list Pending) :
  In p l -> List.existsb (Pending_eqb p) l = true.
Proof.
  intros H. apply existsb_exists. exists p. split; [exact H|].
  destruct p; cbn; try reflexivity; apply Nat.eqb_refl.
Qed.

Lemma remove_first_perm (p : Pending) (l : list Pending) :
  In p l -> Permutation (p :: remove_first p l) l.
Proof.
  induction l as [|q l IH]; cbn; [contradiction|].
  destruct (Pending_eqb p q) eqn:E.
  - intros _. apply Pending_eqb_eq in E. now subst.
  - intros [->|H].
    + destruct p; cbn in E; try discriminate; now rewrite Nat.eqb_refl in E.
    + rewrite perm_swap. constructor. now apply IH.
Qed.

(** A thread that [g_thread_new] made runs [refresh_update_cache] whatever
    else is in flight: it takes a new task and requests a cache refresh. *)
Lemma run_thread (w1 : World) :
  In PThread (inflight w1) ->
  exists w2, step RunThread w1 = Some w2
    /\ trace w2 = EvRefreshCache (next_task w1) :: trace w1
    /\ next_task w2 = S (next_task w1)
    /\ inflight w2
       = remove_first PThread (inflight w1) ++ [PRefreshCache (next_task w1)]
    /\ Permutation (PThread :: inflight w2)
         (inflight w1 ++ [PRefreshCache (next_task w1)])
    /\ up w2 = up w1.
Proof.
  intros H. unfold step, complete. rewrite (existsb_Pending _ _ H).
  eexists. split; [reflexivity|].
  unfold exec, refresh_update_cache, pk_task_new, pk_client_refresh_cache_async,
    modify, bind, with_inflight, emit. cbn.
  repeat split; try reflexivity.
  change (PThread :: remove_first PThread (inflight w1)
                       ++ [PRefreshCache (next_task w1)])
    with ((PThread :: remove_first PThread (inflight w1))
            ++ [PRefreshCache (next_task w1)]).
  apply Permutation_app_tail. now apply remove_first_perm.
Qed.

(** C2, as the code has it.  [check_for_updates] keeps no record of a check
    in progress: whenever the network probe passes it logs the start of a
    check and makes a new thread, after the checks already in flight, which
    stay as they were together with the plug-in's fields.  A thread in
    flight, in whatever world, runs to a cache refresh on a task of its
    own: one thread in flight becomes one more refresh outstanding, and
    everything else in flight stays. *)
Theorem check_is_not_single_flight (w : World) :
  eval net_available w = true ->
  let w' := exec check_for_updates w in
  inflight w' = inflight w ++ [PThread]
  /\ up w' = up w
  /\ trace w' = EvThreadNew :: EvDebug "Checking for updates" []
                  :: EvSystem cmd_hostname (oracle w (ticks w) cmd_hostname)
                  :: trace w
  /\ next_task w' = next_task w
  /\ (forall w1, In PThread (inflight w1) ->
      exists w2, step RunThread w1 = Some w2
        /\ trace w2 = EvRefreshCache (next_task w1) :: trace w1
        /\ next_task w2 = S (next_task w1)
        /\ inflight w2
           = remove_first PThread (inflight w1)
             ++ [PRefreshCache (next_task w1)]
        /\ Permutation (PThread :: inflight w2)
             (inflight w1 ++ [PRefreshCache (next_task w1)])
        /\ up w2 = up w1).
Proof.
  intros N w'.
  assert (G : inflight w' = inflight w ++ [PThread] /\ up w' = up w
    /\ trace w' = EvThreadNew :: EvDebug "Checking for updates" []
                    :: EvSystem cmd_hostname (oracle w (ticks w) cmd_hostname)
                    :: trace w
    /\ next_task w' = next_task w).
  { subst w'. revert N. io. probes.
    repeat split; try reflexivity; now destruct (up w). }
  destruct G as [A [B [C D]]].
  repeat (split; [assumption|]). exact run_thread.
Qed.

Lemma check_is_not_single_flight_witness :
  inflight w_busy = [PRefreshCache 0%nat]
  /\ inflight (exec check_for_updates w_busy) = [PRefreshCache 0%nat; PThread]
  /\ exists w2, step RunThread (exec check_for_updates w_busy) = Some w2
       /\ inflight w2 = [PRefreshCache 0%nat; PRefreshCache 1%nat].
Proof.
  destruct (check_is_not_single_flight w_busy eq_refl) as [A [_ [_ [_ B]]]].
  assert (I0 : inflight w_busy = [PRefreshCache 0%nat])
    by (vm_compute; reflexivity).
  assert (T : next_task (exec check_for_updates w_busy) = 1%nat)
    by (vm_compute; reflexivity).
  rewrite I0 in A.
  split; [exact I0|]. split; [exact A|].
  destruct (B (exec check_for_updates w_busy)) as [w2 [S [_ [_ [I _]]]]].
  - rewrite A. right. left. reflexivity.
  - exists w2. split; [exact S|]. rewrite I, A, T. reflexivity.
Defined.

(** C2, as claimed, fails: with a cache refresh outstanding a further call
    is not ignored.  It starts a thread, and once that thread has run two
    cache refreshes are outstanding at the same time. *)
Lemma second_check_starts_second_run :
  inflight w_busy = [PRefreshCache 0%nat]
  /\ inflight (exec check_for_updates w_busy) <> inflight w_busy
  /\ count is_backend (exec check_for_updates w_busy)
     = S (count is_backend w_busy)
  /\ option_map inflight (step RunThread (exec check_for_updates w_busy))
     = Some [PRefreshCache 0%nat; PRefreshCache 1%nat].
Proof.
  split; [reflexivity|].
  split; [vm_compute; discriminate|].
  split; vm_compute; reflexivity.
Qed.

(** X19. A [GError] ends the check where it is: when
    [pk_task_generic_finish] sets its error, either callback logs the
    message and returns; no further request is made, and the plug-in's
    fields and icon are as before. *)
Theorem gerror_keeps_state (w : World) (task : nat) (message : string) :
  (let w' := exec (refresh_cache_done task (Failed message)) w in
   up w' = up w /\ inflight w' = inflight w
   /\ shown w' = shown w /\ sensitive w' = sensitive w
   /\ trace w' = EvDebug "Error updating cache - %s" [ArgS message] :: trace w)
  /\ (let w' := exec (check_updates_done task (Failed message)) w in
   up w' = up w /\ inflight w' = inflight w
   /\ shown w' = shown w /\ sensitive w' = sensitive w
   /\ trace w' = EvDebug "Error comparing versions - %s" [ArgS message] :: trace w)
  /\ (forall w', step (RefreshCacheFinished task (Failed message)) w = Some w' ->
      n_updates (up w') = n_updates (up w) /\ ids (up w') = ids (up w)
      /\ inflight w' = remove_first (PRefreshCache task) (inflight w))
  /\ (forall w', step (GetUpdatesFinished task (Failed message)) w = Some w' ->
      n_updates (up w') = n_updates (up w) /\ ids (up w') = ids (up w)
      /\ inflight w' = remove_first (PGetUpdates task) (inflight w)).
Proof.
  unfold step, complete. io.
  repeat split; try reflexivity; try (now destruct (up w));
    intros; probes;
    match goal with H : Some _ = Some _ |- _ => injection H as <- end;
    reflexivity.
Qed.

Lemma gerror_keeps_state_witness :
  exists w', step (RefreshCacheFinished 1 (Failed "offline")) w_rechecking
             = Some w'
    /\ n_updates (up w') = 1 /\ ids (up w') = Some ["bar;3.0;armhf;"]
    /\ inflight w' = [].
Proof.
  destruct (gerror_keeps_state w_rechecking 1 "offline") as [_ [_ [A _]]].
  assert (P : n_updates (up w_rechecking) = 1
              /\ ids (up w_rechecking) = Some ["bar;3.0;armhf;"]
              /\ inflight w_rechecking = [PRefreshCache 1%nat])
    by (repeat split; vm_compute; reflexivity).
  destruct P as [P1 [P2 I]].
  assert (S : exists w',
             step (RefreshCacheFinished 1 (Failed "offline")) w_rechecking
             = Some w') by (vm_compute; eexists; reflexivity).
  destruct S as [w' S]. exists w'. split; [exact S|].
  destruct (A w' S) as [A1 [A2 A3]].
  rewrite A1, A2, A3, P1, P2, I. repeat split; reflexivity.
Defined.

(** ** What a completed check publishes *)

Lemma check_updates_done_publishes (w : World) (task : nat)
    (results : PkPackageSack) :
  let w' := exec (check_updates_done task (Finished results)) w in
  let n := int_of_Z (pk_package_sack_get_size (fsack_of w results)) in
  n_updates (up w') = n
  /\ ids (up w')
     = (if 0 <? n then Some (pk_package_sack_get_ids (fsack_of w results))
        else None)
  /\ interval (up w') = interval (up w) /\ timer (up w') = timer (up w)
  /\ shown w' = negb (n =? 0) /\ sensitive w' = negb (n =? 0)
  /\ count is_notify w'
     = (if 0 <? n then S (count is_notify w) else count is_notify w)
  /\ sources w' = sources w /\ inflight w' = inflight w.
Proof.
  unfold fsack_of. io.
  destruct (negb (oracle w (ticks w) cmd_is_pi =? 0)); cbn;
    match goal with
    | |- context [0 <? ?n] =>
        destruct (0 <? n) eqn:P; cbn; rewrite ?P;
        destruct (n =? 0) eqn:Z0; cbn
    end;
    repeat split; try reflexivity; try lia.
Qed.

(** C8, where the code falls short of it.  A request can also fail with
    an error code in its results and no [GError]; the installer's
    [error_handler] stops on that.  The plug-in's callbacks test the
    [GError] alone.  After a cache refresh that failed so,
    [refresh_cache_done] goes on to the update query; after an update query
    that failed so, [check_updates_done] logs no error and publishes what
    the results hold, so with no packages in them it puts [n_updates] to 0
    and [ids] to NULL and hides the icon.  On the PC that has [bar]
    published, a second check whose two requests fail this way ends with
    nothing published and no error in the log. *)
Theorem error_code_is_not_checked (w : World) (task : nat) (details : string)
    (packages : PkPackageSack) :
  let c := WithErrorCode details packages in
  (forall s desc,
     Installer.eval (Installer.error_handler (as_installer_reads c) desc) s
     = None)
  /\ (let w' := exec (refresh_cache_done task (as_plugin_reads c)) w in
      trace w' = EvGetUpdates task
                   :: EvDebug "Cache updated - comparing versions" []
                   :: trace w
      /\ inflight w' = inflight w ++ [PGetUpdates task])
  /\ (let w' := exec (check_updates_done task (as_plugin_reads c)) w in
      let n := int_of_Z (pk_package_sack_get_size (fsack_of w packages)) in
      n_updates (up w') = n
      /\ ids (up w')
         = (if 0 <? n then Some (pk_package_sack_get_ids (fsack_of w packages))
            else None)
      /\ shown w' = negb (n =? 0)
      /\ count is_error_log w' = count is_error_log w)
  /\ (let w' := exec (check_updates_done task
                        (as_plugin_reads (WithErrorCode details []))) w in
      published w' = (0, None, false)
      /\ hd_error (trace w')
         = Some (EvDebug "Check complete - no updates available" []))
  /\ (published w_rechecking = (1, Some ["bar;3.0;armhf;"], true)
      /\ inflight w_rechecking = [PRefreshCache 1%nat]
      /\ option_map (fun w' => (published w', inflight w',
                                count is_error_log w'))
           (run failed_check w_rechecking)
         = Some ((0, None, false), [], 0%nat)).
Proof.
  cbv zeta. split; [|split; [|split; [|split]]].
  - intros s desc. reflexivity.
  - split; reflexivity.
  - cbn [as_plugin_reads].
    destruct (check_updates_done_publishes w task packages)
      as [A [B [_ [_ [C _]]]]].
    repeat (split; [assumption|]).
    unfold fsack_of. io.
    destruct (negb (oracle w (ticks w) cmd_is_pi =? 0)); cbn;
      match goal with
      | |- context [0 <? ?n] =>
          destruct (0 <? n) eqn:P; cbn; rewrite ?P;
          destruct (n =? 0) eqn:Z0; cbn
      end; reflexivity.
  - unfold published. io. probes; split; reflexivity.
  - repeat split; vm_compute; reflexivity.
Qed.

Lemma filter_fn_amd64 (package : PkPackage) :
  filter_fn package = false <-> occurs_in "amd64" (pk_package_get_arch package).
Proof.
  unfold filter_fn. rewrite <- strstr_occurs.
  destruct (strstr (pk_package_get_arch package) "amd64"); split;
    congruence.
Qed.

(** C5. When the sack a check ends with is empty, the plug-in afterwards
    has [n_updates = 0] and [ids = NULL], and the icon is hidden, whatever
    the fields held before. *)
Theorem zero_updates_published (w : World) (task : nat)
    (results : PkPackageSack) :
  fsack_of w results = [] ->
  let w' := exec (check_updates_done task (Finished results)) w in
  n_updates (up w') = 0 /\ ids (up w') = None
  /\ shown w' = false /\ sensitive w' = false.
Proof.
  intros E w'.
  destruct (check_updates_done_publishes w task results)
    as [N [I [_ [_ [S1 [S2 _]]]]]].
  fold w' in N, I, S1, S2. rewrite E in *.
  change (int_of_Z (pk_package_sack_get_size [])) with 0 in *.
  repeat split; assumption.
Qed.

Lemma zero_updates_published_witness :
  n_updates (up w_has_updates) = 1
  /\ n_updates (up (exec (check_updates_done 1 (Finished [pkg_foo]))
                         w_has_updates)) = 0
  /\ ids (up (exec (check_updates_done 1 (Finished [pkg_foo]))
                   w_has_updates)) = None.
Proof.
  destruct (zero_updates_published w_has_updates 1 [pkg_foo] eq_refl)
    as [A [B _]].
  repeat split; assumption.
Defined.

(** C6. The platform filter.  On a Pi the check publishes the backend's
    list as it is.  Elsewhere it publishes the list without the packages
    whose architecture contains [amd64], the others staying in their
    order.  For [foo] (amd64) and [bar] (armhf) off a Pi only [bar] is
    published. *)
Theorem platform_filter (w : World) (task : nat) (results : PkPackageSack) :
  let w' := exec (check_updates_done task (Finished results)) w in
  let published (sack : PkPackageSack) :=
    n_updates (up w') = int_of_Z (pk_package_sack_get_size sack)
    /\ ids (up w') = (if 0 <? n_updates (up w')
                      then Some (pk_package_sack_get_ids sack) else None) in
  (eval (system cmd_is_pi) w = 0 -> published results)
  /\ (eval (system cmd_is_pi) w <> 0 ->
      exists keep : PkPackage -> bool,
        (forall p, keep p = false
                   <-> occurs_in "amd64" (pk_package_get_arch p))
        /\ published (List.filter keep results))
  /\ (let pc := exec (check_updates_done task (Finished [pkg_foo; pkg_bar]))
                     w_pc in
      n_updates (up pc) = 1 /\ ids (up pc) = Some [pk_package_get_id pkg_bar]).
Proof.
  intros w' published.
  destruct (check_updates_done_publishes w task results) as [N [I _]].
  fold w' in N, I. rewrite <- N in I. unfold fsack_of in N, I.
  split; [|split].
  - intros E. rewrite E in N, I. split; assumption.
  - intros E. apply Z.eqb_neq in E. rewrite E in N, I.
    exists filter_fn. split; [apply filter_fn_amd64|].
    split; assumption.
  - split; reflexivity.
Qed.

Lemma platform_filter_witness :
  ids (up (exec (check_updates_done 0 (Finished [pkg_foo; pkg_bar])) w_online))
  = Some ["foo;1.2;amd64;"%string; "bar;3.0;armhf;"%string]
  /\ (exists keep : PkPackage -> bool,
        n_updates (up (exec (check_updates_done 0 (Finished [pkg_foo; pkg_bar]))
                            w_pc))
        = int_of_Z (pk_package_sack_get_size
                      (List.filter keep [pkg_foo; pkg_bar])))
  /\ ids (up (exec (check_updates_done 0 (Finished [pkg_foo; pkg_bar])) w_pc))
     = Some ["bar;3.0;armhf;"%string].
Proof.
  destruct (platform_filter w_online 0 [pkg_foo; pkg_bar]) as [A _].
  destruct (A eq_refl) as [_ A2].
  destruct (platform_filter w_pc 0 [pkg_foo; pkg_bar]) as [_ [B [_ C]]].
  assert (P : eval (system cmd_is_pi) w_pc <> 0) by (vm_compute; discriminate).
  destruct (B P) as [keep [_ [B1 _]]].
  split; [exact A2 | split; [exists keep; exact B1 | exact C]].
Defined.

(** * Notifications *)






(** * The scheduler *)

(** ** What the callbacks leave alone *)

Lemma callback_frame (cb : callback) (w : World) :
  let w' := exec (run_callback cb) w in
  up w' = up w /\ now w' = now w /\ oracle w' = oracle w
  /\ (sources w' = sources w /\ next_id w' = next_id w
      \/ cb = cb_init_check
         /\ sources w' = sources w ++ [net_poll (next_id w) (now w)]
         /\ next_id w' = next_id w + 1).
Proof.
  destruct cb; cbn [run_callback]; io; probes; repeat split;
    solve [reflexivity | left; split; reflexivity
          | right; repeat split; reflexivity].
Qed.

Lemma rearm_id (id t : Z) (s : Source) : src_id (rearm id t s) = src_id s.
Proof. unfold rearm. destruct (src_secs s); [destruct (_ =? _)|]; reflexivity. Qed.

Lemma rearm_cb (id t : Z) (s : Source) : src_cb (rearm id t s) = src_cb s.
Proof. unfold rearm. destruct (src_secs s); [destruct (_ =? _)|]; reflexivity. Qed.

Lemma find_rearm (id t : Z) (l : list Source) :
  List.find (fun s => src_id s =? id) (List.map (rearm id t) l)
  = option_map (rearm id t) (List.find (fun s => src_id s =? id) l).
Proof.
  induction l as [|s l IH]; cbn; [reflexivity|].
  rewrite rearm_id. destruct (src_id s =? id); [reflexivity | exact IH].
Qed.

(** What an event other than a dispatch or a reconfiguration leaves
    alone. *)
Lemma step_frame (a : Action) (w w' : World) :
  plain a = true -> step a w = Some w' ->
  sources w' = sources w /\ next_id w' = next_id w
  /\ timer (up w') = timer (up w) /\ interval (up w') = interval (up w).
Proof.
  destruct a as [dt|id| |task res|task res|cmd| | | | |hours];
    try discriminate; intros _; unfold step, complete.
  - destruct (0 <=? dt); [|discriminate]. now intros [= <-].
  - destruct (existsb _ _); [|discriminate]. now intros [= <-].
  - destruct (existsb _ _); [|discriminate]. intros [= <-].
    now destruct res.
  - destruct (existsb _ _); [|discriminate]. intros [= <-].
    destruct res; [now repeat split|].
    io. probes; repeat split; reflexivity.
  - intros [= <-]. io. probes; repeat split; reflexivity.
  - now intros [= <-].
  - intros [= <-]. io. probes; repeat split; reflexivity.
  - intros [= <-]. io. probes; repeat split; reflexivity.
  - intros [= <-]. io. probes; repeat split; reflexivity.
Qed.

(** ** Every reachable world is well formed *)

Lemma wf_same_sources (w w' : World) :
  wf w -> sources w' = sources w -> next_id w' = next_id w ->
  timer (up w') = timer (up w) -> wf w'.
Proof. unfold wf. intros H -> -> ->. exact H. Qed.

Lemma wf_apply_configuration (w : World) :
  wf w -> wf (exec updater_apply_configuration w).
Proof.
  intros [P [I T]]. unfold wf. io.
  assert (K : forall s tag, In s (filter (fun s => negb (src_id s =? tag)) (sources w)) ->
                            In s (sources w) /\ src_id s <> tag).
  { intros s tag H. apply filter_In in H as [H1 H2]. split; [exact H1|].
    apply negb_true_iff, Z.eqb_neq in H2. exact H2. }
  destruct (timer (up w) =? 0) eqn:T0; cbn;
    destruct (interval (up w) =? 0) eqn:I0; cbn;
    (split; [lia|]); split; intros s H;
    try (apply in_app_or in H as [H|[<-|[]]]); cbn;
    try (apply K in H as [H1 H2]);
    try solve [ match goal with H : In s (sources w) |- _ =>
                  specialize (I s H); lia end
              | lia | reflexivity ];
    intros C;
    match goal with H : In s (sources w) |- _ =>
      specialize (I s H); specialize (T s H C) end;
    apply Z.eqb_eq in T0 || apply Z.eqb_neq in T0; try lia; congruence.
Qed.

Lemma wf_dispatch (id : Z) (w w' : World) :
  wf w -> dispatch id w = Some w' -> wf w'.
Proof.
  intros W. unfold dispatch.
  destruct (find _ _) as [s|]; [|discriminate].
  destruct (ready s w); [|discriminate].
  pose proof (callback_frame (src_cb s) (emit (EvDispatch (src_cb s)) w)) as F.
  unfold exec in F.
  destruct (run_callback _ _) as [again w1]. cbn in F.
  destruct F as [U [_ [_ F]]].
  assert (W1 : wf w1).
  { destruct W as [P [I T]].
    destruct F as [[S N]|[_ [S N]]]; unfold wf; rewrite S, N, U.
    - exact (conj P (conj I T)).
    - split; [lia|]. split; intros x H; apply in_app_or in H as [H|[<-|[]]]; cbn.
      + specialize (I x H). lia.
      + lia.
      + now apply T.
      + discriminate. }
  clear F U W. destruct W1 as [P [I T]].
  destruct again; intros [= <-]; unfold wf; io; (split; [exact P|]); split;
    intros x H.
  - apply in_map_iff in H as [y [<- H]]. rewrite rearm_id. now apply I.
  - apply in_map_iff in H as [y [<- H]]. rewrite rearm_id, rearm_cb. now apply T.
  - apply filter_In in H as [H _]. now apply I.
  - apply filter_In in H as [H _]. now apply T.
Qed.

Lemma wf_step (a : Action) (w w' : World) :
  wf w -> step a w = Some w' -> wf w'.
Proof.
  intros W.
  destruct a as [dt|id| |task res|task res|cmd| | | | |hours];
    unfold step, complete.
  - destruct (0 <=? dt); [|discriminate]. now intros [= <-].
  - now apply wf_dispatch.
  - destruct (existsb _ _); [|discriminate]. now intros [= <-].
  - destruct (existsb _ _); [|discriminate]. intros [= <-].
    destruct res; exact W.
  - destruct (existsb _ _); [|discriminate]. intros [= <-].
    destruct res; [exact W|].
    unfold wf in *. io. probes; exact W.
  - intros [= <-]. unfold wf in *. io. probes; exact W.
  - intros [= <-]. exact W.
  - intros [= <-]. unfold wf in *. io. probes; exact W.
  - intros [= <-]. unfold wf in *. io. probes; exact W.
  - intros [= <-]. unfold wf in *. io. probes; exact W.
  - intros [= <-]. apply wf_apply_configuration. exact W.
Qed.

Lemma wf_start (orc : nat -> string -> Z) (cfg : option Z) : wf (start orc cfg).
Proof.
  unfold start, boot, wf. io.
  destruct cfg as [hours|]; cbn; [destruct (hours =? 0); cbn|];
    (split; [lia|]); split; intros s H;
    repeat (destruct H as [<-|H]; cbn; try lia; try discriminate; try reflexivity);
    try contradiction.
Qed.

(** Every world the plug-in can reach is well formed. *)
Lemma wf_run (acts : list Action) (w w' : World) :
  wf w -> run acts w = Some w' -> wf w'.
Proof.
  revert w. induction acts as [|a acts IH]; intros w W; cbn.
  - now intros [= <-].
  - destruct (step a w) as [w1|] eqn:S1; [|discriminate].
    apply IH. exact (wf_step _ _ _ W S1).
Qed.

(** ** The periodic timer *)

Lemma callback_periodic_calls (cb : callback) (w : World) :
  periodic_calls (exec (run_callback cb) w) = periodic_calls w.
Proof.
  unfold periodic_calls.
  destruct cb; cbn [run_callback]; io; probes; reflexivity.
Qed.

Lemma step_no_periodic (a : Action) (w w' : World) :
  no_periodic w -> keeps_interval_off a = true -> step a w = Some w' ->
  no_periodic w' /\ periodic_calls w' = periodic_calls w.
Proof.
  intros NP Q.
  destruct a as [dt|id| |task res|task res|cmd| | | | |hours];
    unfold step, complete.
  - destruct (0 <=? dt); [|discriminate]. intros [= <-]. now split.
  - unfold dispatch.
    destruct (find _ _) as [s|] eqn:F; [|discriminate].
    destruct (ready s w); [|discriminate].
    apply find_some in F as [F _]. specialize (NP s F) as NS.
    pose proof (callback_frame (src_cb s) (emit (EvDispatch (src_cb s)) w)) as B.
    pose proof (callback_periodic_calls (src_cb s) (emit (EvDispatch (src_cb s)) w)) as C.
    unfold exec in B, C.
    destruct (run_callback _ _) as [again w1]. cbn in B, C.
    destruct B as [_ [_ [_ B]]].
    assert (C1 : periodic_calls w1 = periodic_calls w).
    { rewrite C. unfold periodic_calls, count, emit; cbn.
      destruct (src_cb s); cbn; congruence. }
    assert (N1 : no_periodic w1).
    { intros x H. destruct B as [[S _]|[_ [S _]]]; rewrite S in H.
      - now apply NP.
      - apply in_app_or in H as [H|[<-|[]]]; [now apply NP | discriminate]. }
    destruct again; intros [= <-]; (split; [|exact C1]); intros x H;
      unfold exec, g_source_remove, modify, with_sources in H; cbn in H.
    + apply in_map_iff in H as [y [<- H]]. rewrite rearm_cb. now apply N1.
    + apply filter_In in H as [H _]. now apply N1.
  - destruct (existsb _ _); [|discriminate]. intros [= <-]. now split.
  - destruct (existsb _ _); [|discriminate]. intros [= <-].
    destruct res; now split.
  - destruct (existsb _ _); [|discriminate]. intros [= <-].
    destruct res; [now split|].
    unfold no_periodic, periodic_calls in *. io. probes; now split.
  - intros [= <-]. unfold no_periodic, periodic_calls in *. io. probes; now split.
  - intros [= <-]. now split.
  - intros [= <-]. unfold no_periodic, periodic_calls in *. io. probes; now split.
  - intros [= <-]. unfold no_periodic, periodic_calls in *. io. probes; now split.
  - intros [= <-]. unfold no_periodic, periodic_calls in *. io. probes; now split.
  - intros [= <-]. cbn in Q.
    unfold no_periodic, periodic_calls in *. io. rewrite Q. cbn.
    destruct (timer (up w) =? 0); cbn; (split; [|reflexivity]); intros s H;
      [|apply filter_In in H as [H _]]; now apply NP.
Qed.

Lemma run_no_periodic (acts : list Action) (w w' : World) :
  no_periodic w -> forallb keeps_interval_off acts = true ->
  run acts w = Some w' ->
  no_periodic w' /\ periodic_calls w' = periodic_calls w.
Proof.
  revert w. induction acts as [|a acts IH]; intros w NP Q; cbn in *.
  - intros [= <-]. now split.
  - apply andb_true_iff in Q as [Qa Q].
    destruct (step a w) as [w1|] eqn:S1; [|discriminate]. intros R.
    destruct (step_no_periodic _ _ _ NP Qa S1) as [NP1 C1].
    destruct (IH _ NP1 Q R) as [NP' C']. split; [exact NP' | congruence].
Qed.

Lemma apply_configuration_sources (w : World) :
  let w' := exec updater_apply_configuration w in
  let hours := interval (up w) in
  sources w'
  = (if timer (up w) =? 0 then sources w
     else List.filter (fun s => negb (src_id s =? timer (up w))) (sources w))
    ++ (if hours =? 0 then [] else [periodic_source (next_id w) (now w) hours])
  /\ timer (up w') = (if hours =? 0 then 0 else next_id w)
  /\ interval (up w') = hours /\ now w' = now w /\ settings w' = Some hours.
Proof.
  io. destruct (timer (up w) =? 0); cbn;
    destruct (interval (up w) =? 0); cbn;
    rewrite ?app_nil_r; repeat split; reflexivity.
Qed.

Lemma find_fresh (l : list Source) (new : Source) :
  (forall s, In s l -> src_id s < src_id new) ->
  List.find (fun s => src_id s =? src_id new) (l ++ [new]) = Some new.
Proof.
  induction l as [|x l IH]; intros F; cbn.
  - now rewrite Z.eqb_refl.
  - destruct (src_id x =? src_id new) eqn:E.
    + apply Z.eqb_eq in E. specialize (F x (or_introl eq_refl)). lia.
    + apply IH. intros s H. apply F. now right.
Qed.

(** C7, within the range of the timer.  For an interval of at most
    [MAX_HOURS] hours, [updater_apply_configuration] takes the armed
    periodic source out of the main loop and, for a nonzero interval, puts
    in one new source that first calls [periodic_check] [interval] hours
    after the reconfiguration: the main loop does not call it earlier and
    can call it from then on.  For an interval of 0 no periodic source is
    left, [timer] is 0, and [periodic_check] is not called again through
    any events other than a reconfiguration to a nonzero interval. *)
Theorem apply_configuration_rearms (w : World) :
  wf w ->
  0 <= interval (up w) <= MAX_HOURS ->
  let w' := exec updater_apply_configuration w in
  let hours := interval (up w) in
  (forall old s, In old (sources w) -> src_cb old = cb_periodic_check ->
                 In s (sources w') -> src_id s <> src_id old)
  /\ (hours <> 0 ->
      timer (up w') = next_id w
      /\ (forall s, src_cb s = cb_periodic_check ->
            (In s (sources w')
             <-> s = mkSource (next_id w) (Some (hours * SECS_PER_HOUR))
                              (now w + hours * SECS_PER_HOUR)
                              cb_periodic_check))
      /\ (forall dt, 0 <= dt ->
            (run [Tick dt; Dispatch (next_id w)] w' <> None
             <-> hours * SECS_PER_HOUR <= dt)))
  /\ (hours = 0 ->
      timer (up w') = 0 /\ no_periodic w'
      /\ (forall acts w'',
            forallb keeps_interval_off acts = true ->
            run acts w' = Some w'' ->
            no_periodic w'' /\ periodic_calls w'' = periodic_calls w'))
  /\ settings w' = Some hours.
Proof.
  intros [P [I T]] R w' hours.
  destruct (apply_configuration_sources w) as [S [Tm [_ [Nw St]]]].
  fold w' hours in S, Tm, Nw, St.
  assert (G : guint_of_Z (hours * SECS_PER_HOUR) = hours * SECS_PER_HOUR).
  { apply guint_of_Z_small. unfold MAX_HOURS, SECS_PER_HOUR in *.
    fold hours in R. lia. }
  assert (K : forall s, In s (if timer (up w) =? 0 then sources w
                              else filter (fun s => negb (src_id s =? timer (up w)))
                                          (sources w)) ->
                        In s (sources w)
                        /\ (src_cb s = cb_periodic_check -> False)).
  { intros s H. destruct (timer (up w) =? 0) eqn:T0.
    - split; [exact H|]. intros C. apply Z.eqb_eq in T0.
      specialize (I s H). specialize (T s H C). lia.
    - apply filter_In in H as [H N]. split; [exact H|]. intros C.
      apply negb_true_iff, Z.eqb_neq in N. now apply N, T. }
  unfold periodic_source in S. rewrite G in S.
  split; [|split; [|split]].
  - intros old s Ho Co Hs E. rewrite S in Hs.
    apply in_app_or in Hs as [Hs|Hs].
    + destruct (K s Hs) as [Hs' _].
      destruct (timer (up w) =? 0) eqn:T0.
      * apply Z.eqb_eq in T0. specialize (I old Ho). specialize (T old Ho Co). lia.
      * apply filter_In in Hs as [_ N]. apply negb_true_iff, Z.eqb_neq in N.
        apply N. rewrite E. now apply T.
    + destruct (hours =? 0); [contradiction|]. destruct Hs as [<-|[]].
      cbn in E. specialize (I old Ho). lia.
  - intros H0. apply Z.eqb_neq in H0. rewrite H0 in S, Tm.
    split; [exact Tm|]. split.
    + intros s C. rewrite S. split.
      * intros H. apply in_app_or in H as [H|[<-|[]]]; [|reflexivity].
        now destruct (K s H) as [_ F].
      * intros ->. apply in_or_app. right. now left.
    + intros dt D. cbn [run step]. destruct (0 <=? dt) eqn:D0; [|lia].
      unfold dispatch, with_now at 1. cbn [sources]. rewrite S.
      set (new := mkSource (next_id w) _ _ _).
      change (next_id w) with (src_id new) at 1.
      rewrite find_fresh.
      2:{ intros s H. destruct (K s H) as [H' _]. specialize (I s H').
          cbn. lia. }
      unfold ready. cbn [src_secs new src_due now with_now]. rewrite Nw.
      destruct (now w + hours * SECS_PER_HOUR <=? now w + dt) eqn:L.
      * apply Z.leb_le in L. split; [lia|]. intros _.
        destruct (run_callback _ _) as [[|] w1]; discriminate.
      * apply Z.leb_gt in L. split; [intros C; now contradiction C | lia].
  - intros H0. fold hours. rewrite H0 in S, Tm. cbn in S, Tm.
    rewrite app_nil_r in S.
    assert (NP : no_periodic w').
    { intros s H C. rewrite S in H. now destruct (K s H) as [_ F]. }
    split; [exact Tm|]. split; [exact NP|].
    intros acts w'' Q Rn. exact (run_no_periodic _ _ _ NP Q Rn).
  - exact St.
Qed.

Lemma wf_reconfigure (hours : Z) : wf (w_reconfigure hours).
Proof.
  apply (wf_same_sources w_online); try reflexivity.
  apply wf_start.
Qed.

Lemma apply_configuration_rearms_witness :
  timer (up (exec updater_apply_configuration (w_reconfigure 6))) = 3
  /\ In (mkSource 3 (Some 21600) 22600 cb_periodic_check)
        (sources (exec updater_apply_configuration (w_reconfigure 6)))
  /\ timer (up (exec updater_apply_configuration (w_reconfigure 0))) = 0
  /\ no_periodic (exec updater_apply_configuration (w_reconfigure 0)).
Proof.
  assert (R6 : 0 <= interval (up (w_reconfigure 6)) <= MAX_HOURS)
    by (cbn; unfold MAX_HOURS; lia).
  assert (R0 : 0 <= interval (up (w_reconfigure 0)) <= MAX_HOURS)
    by (cbn; unfold MAX_HOURS; lia).
  destruct (apply_configuration_rearms _ (wf_reconfigure 6) R6)
    as [_ [A _]].
  destruct (apply_configuration_rearms _ (wf_reconfigure 0) R0)
    as [_ [_ [B _]]].
  destruct A as [A1 [A2 _]]; [cbn; lia|].
  destruct (B eq_refl) as [B1 [B2 _]].
  split; [exact A1|]. split; [|split; [exact B1 | exact B2]].
  apply (A2 (mkSource 3 (Some 21600) 22600 cb_periodic_check) eq_refl).
  reflexivity.
Defined.

(** C7, as claimed for every interval, fails outside 0..[MAX_HOURS]: the
    seconds of 1193047 hours, 4294969200, do not fit the [guint] that
    [g_timeout_add_seconds] takes, and the source is due after 1904
    seconds; an interval of -1 hours arms a source due after 4294963696
    seconds. *)
Lemma interval_beyond_guint_wraps :
  (let w' := exec updater_apply_configuration (w_reconfigure 1193047) in
   interval (up w') = 1193047
   /\ 1193047 * SECS_PER_HOUR = 4294969200
   /\ List.filter (fun s => callback_eqb (src_cb s) cb_periodic_check)
        (sources w')
      = [mkSource 3 (Some 1904) (1000 + 1904) cb_periodic_check])
  /\ (let w' := exec updater_apply_configuration (w_reconfigure (-1)) in
   interval (up w') = -1
   /\ List.filter (fun s => callback_eqb (src_cb s) cb_periodic_check)
        (sources w')
      = [mkSource 3 (Some 4294963696) (1000 + 4294963696) cb_periodic_check]).
Proof. repeat split; vm_compute; reflexivity. Qed.

(** ** Start-up and the wait for the network *)

(** What the main loop's call of [net_check] does, by the answers of the
    network probe: the one [net_check] makes and, when that passes, the one
    [check_for_updates] makes after it. *)
Lemma dispatch_net_check (id : Z) (w : World) (s : Source) :
  List.find (fun s => src_id s =? id) (sources w) = Some s ->
  src_cb s = cb_net_check -> ready s w = true ->
  exists w', dispatch id w = Some w'
    /\ now w' = now w /\ oracle w' = oracle w /\ next_id w' = next_id w
    /\ if oracle w (ticks w) cmd_hostname =? 0 then
         ticks w' = S (S (ticks w))
         /\ sources w' = List.filter (fun s => negb (src_id s =? id)) (sources w)
         /\ if oracle w (S (ticks w)) cmd_hostname =? 0 then
              inflight w' = inflight w ++ [PThread]
              /\ count is_backend w' = S (count is_backend w)
            else
              inflight w' = inflight w
              /\ count is_backend w' = count is_backend w
       else
         ticks w' = S (ticks w)
         /\ sources w' = List.map (rearm id (now w)) (sources w)
         /\ inflight w' = inflight w
         /\ count is_backend w' = count is_backend w.
Proof.
  intros F C R. unfold dispatch. rewrite F, R, C. cbn [run_callback].
  io. probes; eexists; repeat split; reflexivity.
Qed.

(** The same for [init_check], by the answers of the wizard probe and of
    the network probes after it. *)
Lemma dispatch_init_check (id : Z) (w : World) (s : Source) :
  List.find (fun s => src_id s =? id) (sources w) = Some s ->
  src_cb s = cb_init_check -> ready s w = true ->
  exists w', dispatch id w = Some w'
    /\ now w' = now w /\ oracle w' = oracle w
    /\ if oracle w (ticks w) cmd_piwiz =? 0 then
         sources w' = List.filter (fun s => negb (src_id s =? id)) (sources w)
         /\ inflight w' = inflight w
         /\ count is_backend w' = count is_backend w
       else if oracle w (S (ticks w)) cmd_hostname =? 0 then
         sources w' = List.filter (fun s => negb (src_id s =? id)) (sources w)
         /\ if oracle w (S (S (ticks w))) cmd_hostname =? 0 then
              inflight w' = inflight w ++ [PThread]
              /\ count is_backend w' = S (count is_backend w)
            else
              inflight w' = inflight w
              /\ count is_backend w' = count is_backend w
       else
         ticks w' = S (S (ticks w))
         /\ sources w'
            = List.filter (fun s => negb (src_id s =? id))
                (sources w ++ [net_poll (next_id w) (now w)])
         /\ inflight w' = inflight w
         /\ count is_backend w' = count is_backend w.
Proof.
  intros F C R. unfold dispatch. rewrite F, R, C. cbn [run_callback].
  io. probes; eexists; repeat split; reflexivity.
Qed.

(** With the wizard running the main loop's call of [init_check] makes the
    wizard probe and nothing else: the network is not asked. *)
Lemma dispatch_init_check_wizard (id : Z) (w : World) (s : Source) :
  List.find (fun s => src_id s =? id) (sources w) = Some s ->
  src_cb s = cb_init_check -> ready s w = true ->
  oracle w (ticks w) cmd_piwiz = 0 ->
  exists w', dispatch id w = Some w'
    /\ trace w' = EvSystem cmd_piwiz 0 :: EvDispatch cb_init_check :: trace w
    /\ ticks w' = S (ticks w)
    /\ sources w' = List.filter (fun s => negb (src_id s =? id)) (sources w)
    /\ inflight w' = inflight w
    /\ up w' = up w.
Proof.
  intros F C R Wz. unfold dispatch. rewrite F, R, C. cbn [run_callback].
  io. rewrite andb_false_r. cbn. rewrite Wz. cbn. eexists.
  repeat split; reflexivity.
Qed.

(** Once only the periodic source is left, no event brings another. *)
Lemma periodic_dispatch_sources (id : Z) (w w' : World) (s : Source) :
  List.find (fun s => src_id s =? id) (sources w) = Some s ->
  src_cb s = cb_periodic_check ->
  dispatch id w = Some w' ->
  sources w' = List.map (rearm id (now w)) (sources w).
Proof.
  intros F C. unfold dispatch. rewrite F, C. cbn [run_callback].
  destruct (ready s w); [|discriminate].
  io. probes; match goal with H : Some _ = Some _ |- _ => injection H as <- end;
    reflexivity.
Qed.

Lemma only_periodic_step (a : Action) (w w' : World) :
  only_periodic w -> step a w = Some w' -> only_periodic w'.
Proof.
  intros O St. destruct (plain a) eqn:Pl.
  - destruct (step_frame a w w' Pl St) as [S _].
    unfold only_periodic. now rewrite S.
  - destruct a as [dt|id| |task res|task res|cmd| | | | |hours];
      try discriminate; cbn [step] in St.
    + destruct (List.find (fun s => src_id s =? id) (sources w)) as [s|] eqn:F;
        [|unfold dispatch in St; rewrite F in St; discriminate].
      pose proof (O s (proj1 (find_some _ _ F))) as C.
      intros x H. rewrite (periodic_dispatch_sources id w w' s F C St) in H.
      apply in_map_iff in H as [y [<- H]].
      rewrite rearm_cb. now apply O.
    + injection St as <-.
      destruct (apply_configuration_sources (with_up (set_interval hours) w))
        as [S _].
      intros x H. rewrite S in H. cbn [sources with_up] in H.
      apply in_app_or in H as [H|H].
      * destruct (timer _ =? 0); [now apply O|].
        apply filter_In in H as [H _]. now apply O.
      * destruct (interval _ =? 0); [contradiction|].
        destruct H as [<-|[]]. reflexivity.
Qed.

Lemma only_periodic_run (acts : list Action) :
  forall w w', only_periodic w -> run acts w = Some w' -> only_periodic w'.
Proof.
  induction acts as [|a acts IH]; intros w w' O R; cbn in R.
  - now injection R as <-.
  - destruct (step a w) as [w1|] eqn:St; [|discriminate].
    exact (IH w1 w' (only_periodic_step a w w1 O St) R).
Qed.

Lemma map_rearm_key (id t : Z) (l : list Source) :
  List.map source_key (List.map (rearm id t) l) = List.map source_key l.
Proof.
  rewrite map_map. apply map_ext. intros s.
  unfold source_key. now rewrite rearm_id, rearm_cb.
Qed.

Lemma polls_without_network (id : Z) (dts : list Z) :
  forall w,
    waiting id w ->
    Forall (fun dt => 60 <= dt) dts ->
    (forall i, (i < List.length dts)%nat ->
               oracle w (ticks w + i) cmd_hostname <> 0) ->
    exists w', run (polls id dts) w = Some w'
      /\ waiting id w'
      /\ ticks w' = (ticks w + List.length dts)%nat
      /\ oracle w' = oracle w
      /\ inflight w' = inflight w
      /\ count is_backend w' = count is_backend w
      /\ List.map source_key (sources w') = List.map source_key (sources w).
Proof.
  induction dts as [|dt dts IH]; intros w Wt D Off.
  - exists w. cbn. rewrite Nat.add_0_r. now repeat split.
  - inversion D as [|? ? D1 D2]; subst.
    cbn [polls run step]. destruct (0 <=? dt) eqn:P; [|lia].
    set (w1 := with_now (now w + dt) w).
    assert (R : ready (net_poll id (now w)) w1 = true)
      by (unfold ready; cbn; lia).
    destruct (dispatch_net_check id w1 _ Wt eq_refl R)
      as [w2 [Dp [Nw [Or [_ B]]]]].
    assert (O0 : oracle w (ticks w) cmd_hostname <> 0).
    { specialize (Off 0%nat). rewrite Nat.add_0_r in Off. apply Off. cbn. lia. }
    apply Z.eqb_neq in O0. cbn [oracle ticks w1 with_now] in B.
    rewrite O0 in B. destruct B as [Tk [Sr [Inf Cb]]].
    rewrite Dp.
    assert (W2 : waiting id w2).
    { unfold waiting. rewrite Sr, find_rearm. cbn [sources w1 with_now].
      unfold waiting in Wt. rewrite Wt. cbn. unfold rearm, net_poll. cbn.
      rewrite Z.eqb_refl, Nw. reflexivity. }
    destruct (IH w2 W2 D2) as [w' [Rn [W' [Tk' [Or' [Inf' [Cb' Ky']]]]]]].
    { intros i Hi. rewrite Or, Tk. cbn [oracle ticks w1 with_now].
      replace (S (ticks w) + i)%nat with (ticks w + S i)%nat by lia.
      apply Off. cbn. lia. }
    exists w'. split; [exact Rn|]. split; [exact W'|].
    rewrite Ky', Sr, map_rearm_key, Tk', Tk, Or', Or, Inf', Inf, Cb', Cb. cbn.
    repeat split; lia.
Qed.

Lemma start_shape (orc : nat -> string -> Z) (cfg : option Z) :
  let w0 := start orc cfg in
  ticks w0 = 0%nat /\ now w0 = 0 /\ oracle w0 = orc /\ inflight w0 = []
  /\ trace w0 = []
  /\ exists per,
       sources w0 = init_source :: per
       /\ next_id w0 = 2 + Z.of_nat (List.length per)
       /\ (forall s, In s per -> src_id s = 2 /\ src_cb s = cb_periodic_check).
Proof.
  unfold start, boot. io.
  destruct cfg as [hours|]; cbn; [destruct (hours =? 0); cbn|];
    repeat (split; [reflexivity|]);
    eexists; (split; [reflexivity|]); (split; [reflexivity|]);
    intros s H; repeat (destruct H as [<-|H]; [now split|]); contradiction.
Qed.

Lemma filter_all (f : Source -> bool) (l : list Source) :
  (forall s, In s l -> f s = true) -> List.filter f l = l.
Proof.
  induction l as [|s l IH]; intros A; cbn; [reflexivity|].
  rewrite (A s (or_introl eq_refl)), IH; [reflexivity|].
  intros x H. apply A. now right.
Qed.

(** C9, as the code has it.  Loading the plug-in queues [init_check] to run
    as soon as the main loop is idle.  With the set-up wizard not running:
    when the network probe passes, in [init_check] and again in
    [check_for_updates], the check starts at once and nothing polls; when
    the probe fails in [init_check], a source calling [net_check] every 60
    seconds is added and, as long as the probe fails, each call leaves it
    due 60 seconds later and starts nothing; the first call in which the
    probe passes, in [net_check] and again in [check_for_updates], starts
    the check and removes the source.  With the wizard running, whatever
    the network: [init_check] makes the wizard probe and returns, so the
    network is not asked, no check starts and no source polls; only the
    periodic source is left, then and after any later events. *)
Theorem startup_check (orc : nat -> string -> Z) (cfg : option Z) :
  let w0 := start orc cfg in
  let id := next_id w0 in
  List.find (fun s => src_id s =? 1) (sources w0) = Some init_source
  /\ (orc 0%nat cmd_piwiz <> 0 ->
      orc 1%nat cmd_hostname = 0 -> orc 2%nat cmd_hostname = 0 ->
      exists w', run [Dispatch 1] w0 = Some w'
        /\ now w' = 0
        /\ inflight w' = [PThread] /\ count is_backend w' = 1%nat
        /\ (forall s, In s (sources w') -> src_cb s = cb_periodic_check))
  /\ (orc 0%nat cmd_piwiz <> 0 -> orc 1%nat cmd_hostname <> 0 ->
      forall dts,
        Forall (fun dt => 60 <= dt) dts ->
        (forall i, (i < List.length dts)%nat ->
                   orc (2 + i)%nat cmd_hostname <> 0) ->
        exists w', run (Dispatch 1 :: polls id dts) w0 = Some w'
          /\ waiting id w'
          /\ inflight w' = [] /\ count is_backend w' = 0%nat
          /\ (forall dt, 0 <= dt < 60 ->
                run [Tick dt; Dispatch id] w' = None)
          /\ (forall dt, 60 <= dt ->
                orc (2 + List.length dts)%nat cmd_hostname = 0 ->
                orc (3 + List.length dts)%nat cmd_hostname = 0 ->
                exists w'', run [Tick dt; Dispatch id] w' = Some w''
                  /\ inflight w'' = [PThread]
                  /\ count is_backend w'' = 1%nat
                  /\ (forall s, In s (sources w'') ->
                        src_cb s = cb_periodic_check)))
  /\ (orc 0%nat cmd_piwiz = 0 ->
      exists w', run [Dispatch 1] w0 = Some w'
        /\ trace w' = [EvSystem cmd_piwiz 0; EvDispatch cb_init_check]
        /\ ticks w' = 1%nat
        /\ inflight w' = [] /\ count is_backend w' = 0%nat
        /\ only_periodic w'
        /\ (forall acts w'', run acts w' = Some w'' -> only_periodic w'')).
Proof.
  intros w0 id.
  destruct (start_shape orc cfg) as [Tk [Nw [Or [Inf [Tr [per [S [N P]]]]]]]].
  fold w0 in Tk, Nw, Or, Inf, Tr, S, N.
  assert (F1 : find (fun s => src_id s =? 1) (sources w0) = Some init_source)
    by (rewrite S; reflexivity).
  assert (C0 : count is_backend w0 = 0%nat) by (unfold count; now rewrite Tr).
  assert (Fp : filter (fun s => negb (src_id s =? 1)) per = per).
  { apply filter_all. intros s H. destruct (P s H) as [-> _]. reflexivity. }
  destruct (dispatch_init_check 1 w0 _ F1 eq_refl eq_refl)
    as [w1 [D1 [Nw1 [Or1 B]]]].
  rewrite Tk, Or in B.
  split; [exact F1|]. split; [|split].
  - intros Wz N1 N2. apply Z.eqb_neq in Wz. rewrite Wz, N1, N2 in B. cbn in B.
    destruct B as [S1 [I1 C1]].
    exists w1. cbn [run step]. rewrite D1. split; [reflexivity|].
    split; [congruence|]. split; [now rewrite I1, Inf|].
    split; [now rewrite C1, C0|].
    intros s H. rewrite S1, S in H. cbn in H. rewrite Fp in H.
    now destruct (P s H).
  - intros Wz N1 dts D Off.
    apply Z.eqb_neq in Wz, N1. rewrite Wz, N1 in B.
    destruct B as [Tk1 [S1 [I1 C1]]].
    assert (Nid : (id =? 1) = false) by (apply Z.eqb_neq; unfold id; rewrite N; lia).
    assert (S1' : sources w1 = per ++ [net_poll id 0]).
    { rewrite S1, S, Nw. cbn. rewrite filter_app, Fp. cbn. fold id.
      now rewrite Nid. }
    assert (W1 : waiting id w1).
    { unfold waiting. rewrite S1', Nw1, Nw.
      change id with (src_id (net_poll id 0)) at 1.
      apply find_fresh. intros s H. destruct (P s H) as [-> _]. cbn.
      unfold id. rewrite N. destruct per; [contradiction | cbn [List.length]; lia]. }
    destruct (polls_without_network id dts w1 W1 D)
      as [w' [Rn [W' [Tk' [Or' [Inf' [Cb' Ky']]]]]]].
    { intros i Hi. rewrite Or1, Or, Tk1. now apply Off. }
    exists w'. cbn [run step]. rewrite D1.
    split; [exact Rn|]. split; [exact W'|].
    split; [now rewrite Inf', I1, Inf|]. split; [now rewrite Cb', C1, C0|].
    split.
    + intros dt Hdt. cbn [run step]. destruct (0 <=? dt) eqn:P0; [|lia].
      unfold dispatch. cbn [sources with_now]. unfold waiting in W'.
      rewrite W'. unfold ready. cbn.
      destruct (now w' + 60 <=? now w' + dt) eqn:L; [|reflexivity].
      apply Z.leb_le in L. lia.
    + intros dt Hdt On1 On2. cbn [run step].
      destruct (0 <=? dt) eqn:P0; [|lia].
      set (wt := with_now (now w' + dt) w').
      assert (R : ready (net_poll id (now w')) wt = true)
        by (unfold ready; cbn; lia).
      destruct (dispatch_net_check id wt _ W' eq_refl R)
        as [w'' [Dp [_ [_ [_ B]]]]].
      cbn [oracle ticks wt with_now] in B.
      rewrite Or', Or1, Or, Tk', Tk1 in B.
      change (Datatypes.S (2 + List.length dts)%nat) with (3 + List.length dts)%nat in B.
      rewrite On1, On2 in B. cbn in B. destruct B as [_ [S2 [I2 C2]]].
      exists w''. rewrite Dp. split; [reflexivity|].
      split; [now rewrite I2, Inf', I1, Inf|].
      split; [now rewrite C2; unfold count; cbn; fold (count is_backend w');
              rewrite Cb', C1, C0|].
      intros s H. rewrite S2 in H. cbn [sources wt with_now] in H.
      apply filter_In in H as [H Ne].
      apply negb_true_iff, Z.eqb_neq in Ne.
      apply (in_map source_key) in H. rewrite Ky', S1' in H.
      apply in_map_iff in H as [s0 [K H]].
      injection K as Kid Kcb.
      apply in_app_or in H as [H|[<-|[]]].
      * destruct (P s0 H) as [_ C]. congruence.
      * cbn in Kid. congruence.
  - intros Wz.
    destruct (dispatch_init_check_wizard 1 w0 _ F1 eq_refl eq_refl)
      as [w' [D' [T' [Tk' [S' [I' _]]]]]]; [now rewrite Tk, Or|].
    assert (O' : only_periodic w').
    { intros s H. rewrite S', S in H. cbn in H. rewrite Fp in H.
      now destruct (P s H). }
    exists w'. cbn [run step]. rewrite D'. split; [reflexivity|].
    split; [now rewrite T', Tr|]. split; [now rewrite Tk', Tk|].
    split; [now rewrite I', Inf|].
    split; [unfold count; now rewrite T', Tr|].
    split; [exact O'|].
    intros acts w''. now apply only_periodic_run.
Qed.

Lemma startup_check_witness :
  (exists w', run [Dispatch 1] (start (script [1; 0; 0]) None) = Some w'
              /\ inflight w' = [PThread])
  /\ (exists w' w'',
        run (Dispatch 1 :: polls 3 [60; 90]) (start orc_late_network None)
        = Some w'
        /\ inflight w' = []
        /\ run [Tick 60; Dispatch 3] w' = Some w''
        /\ inflight w'' = [PThread])
  /\ (exists w',
        run [Dispatch 1] (start (machine true true true true) None) = Some w'
        /\ ticks w' = 1%nat /\ inflight w' = [] /\ only_periodic w').
Proof.
  split; [|split].
  - destruct (startup_check (script [1; 0; 0]) None) as [_ [A _]].
    destruct A as [w' [R [_ [I _]]]];
      [cbn; discriminate | reflexivity | reflexivity |].
    exists w'. split; assumption.
  - destruct (startup_check orc_late_network None) as [_ [_ [B _]]].
    destruct (B ltac:(cbn; discriminate) ltac:(cbn; discriminate) [60; 90])
      as [w' [R [_ [I [_ [_ C]]]]]].
    + repeat constructor; lia.
    + intros [|[|i]] H; [cbn; discriminate | cbn; discriminate |].
      cbn [List.length] in H. lia.
    + destruct (C 60) as [w'' [R' [I' _]]]; [lia | reflexivity | reflexivity |].
      exists w', w''. repeat split; assumption.
  - destruct (startup_check (machine true true true true) None)
      as [_ [_ [_ W]]].
    destruct (W eq_refl) as [w' [R [_ [T [I [_ [O _]]]]]]].
    exists w'. repeat split; assumption.
Defined.

(** C9, as claimed, fails while the set-up wizard runs: [init_check]
    returns before the network probe, so with the network up no check
    starts, and with the network down nothing polls. *)
Lemma wizard_running_skips_check :
  (let w0 := start (machine true true true true) None in
   eval net_available w0 = true
   /\ option_map (fun w => (inflight w, count is_backend w, sources w))
        (run [Dispatch 1] w0)
      = Some ([], 0%nat, [mkSource 2 (Some 86400) 86400 cb_periodic_check]))
  /\ (let w0 := start (machine true false true true) None in
   eval net_available w0 = false
   /\ option_map (fun w => (inflight w, count is_backend w, sources w))
        (run [Dispatch 1] w0)
      = Some ([], 0%nat, [mkSource 2 (Some 86400) 86400 cb_periodic_check])).
Proof. repeat split; vm_compute; reflexivity. Qed.

(** * Further properties of the plug-in *)

(** ** The id array and the count *)

Lemma positive_count_within (n : nat) :
  0 < int_of_Z (guint_of_Z (Z.of_nat n)) ->
  int_of_Z (guint_of_Z (Z.of_nat n)) <= Z.of_nat n.
Proof.
  unfold int_of_Z, guint_of_Z.
  pose proof (Z.mod_pos_bound (Z.of_nat n) (2 ^ 32) ltac:(lia)) as B.
  pose proof (Z.mod_le (Z.of_nat n) (2 ^ 32) ltac:(lia) ltac:(lia)) as L.
  set (x := Z.of_nat n mod 2 ^ 32) in *.
  destruct (Z_lt_ge_dec x (2 ^ 31)) as [S|S].
  - rewrite Z.mod_small by lia. lia.
  - replace (x + 2 ^ 31) with (x - 2 ^ 31 + 1 * 2 ^ 32) by lia.
    rewrite Z.mod_add by lia. rewrite Z.mod_small by lia. lia.
Qed.

Lemma dispatch_up (id : Z) (w w' : World) :
  dispatch id w = Some w' -> up w' = up w.
Proof.
  unfold dispatch.
  destruct (find _ _) as [s|]; [|discriminate].
  destruct (ready s w); [|discriminate].
  pose proof (callback_frame (src_cb s) (emit (EvDispatch (src_cb s)) w)) as F.
  unfold exec in F. destruct (run_callback _ _) as [again w1]. cbn in F.
  destruct F as [U _]. destruct again; intros [= <-]; exact U.
Qed.

Lemma ids_coherent_step (a : Action) (w w' : World) :
  ids_coherent (up w) -> step a w = Some w' -> ids_coherent (up w').
Proof.
  intros C.
  destruct a as [dt|id| |task res|task res|cmd| | | | |hours];
    unfold step, complete.
  - destruct (0 <=? dt); [|discriminate]. now intros [= <-].
  - intros D. now rewrite (dispatch_up _ _ _ D).
  - destruct (existsb _ _); [|discriminate]. now intros [= <-].
  - destruct (existsb _ _); [|discriminate]. intros [= <-].
    destruct res; exact C.
  - destruct (existsb _ _); [|discriminate]. intros [= <-].
    destruct res as [message|results]; [exact C|].
    destruct (check_updates_done_publishes
                (with_inflight (remove_first (PGetUpdates task)) w) task results)
      as [N [I _]].
    unfold ids_coherent. rewrite I, N.
    set (sack := fsack_of _ results).
    destruct (0 <? _) eqn:P.
    + apply Z.ltb_lt in P. split; [exact P|].
      unfold pk_package_sack_get_ids. rewrite length_map.
      now apply positive_count_within.
    + apply Z.ltb_ge in P. exact P.
  - intros [= <-]. unfold ids_coherent in *. io. probes; exact C.
  - intros [= <-]. exact C.
  - intros [= <-]. unfold ids_coherent in *. io. probes; exact C.
  - intros [= <-]. unfold ids_coherent in *. io. probes; exact C.
  - intros [= <-]. unfold ids_coherent in *. io. probes; exact C.
  - intros [= <-]. unfold ids_coherent in *. io. probes; exact C.
Qed.

Lemma ids_coherent_start (orc : nat -> string -> Z) (cfg : option Z) :
  ids_coherent (up (start orc cfg)).
Proof.
  unfold start, boot, ids_coherent. io.
  destruct cfg as [hours|]; cbn; [destruct (hours =? 0); cbn|]; lia.
Qed.

(** X1. In every world the plug-in can reach, [ids] is NULL exactly when
    [n_updates] is not positive, and otherwise holds at least [n_updates]
    ids: each [ids[count]] that the loop of [show_updates] reads, for
    [count < n_updates], exists. *)
Theorem show_updates_reads_within_ids (w : World) :
  reachable w ->
  ids_coherent (up w)
  /\ (ids (up w) = None <-> n_updates (up w) <= 0)
  /\ (forall count, 0 <= count < n_updates (up w) ->
        exists l id, ids (up w) = Some l
                     /\ List.nth_error l (Z.to_nat count) = Some id).
Proof.
  intros [orc [cfg [acts R]]].
  assert (C : ids_coherent (up w)).
  { pose proof (ids_coherent_start orc cfg) as C0.
    revert R C0. generalize (start orc cfg).
    induction acts as [|a acts IH]; intros w0 R C0; cbn in R.
    - now injection R as <-.
    - destruct (step a w0) as [w1|] eqn:S1; [|discriminate].
      exact (IH _ R (ids_coherent_step _ _ _ C0 S1)). }
  split; [exact C|]. unfold ids_coherent in C.
  destruct (ids (up w)) as [l|].
  - split; [split; [discriminate | lia]|].
    intros count H.
    destruct (List.nth_error l (Z.to_nat count)) as [id|] eqn:E.
    + now exists l, id.
    + apply nth_error_None in E. lia.
  - split; [now split|]. intros count H. lia.
Qed.

(** ** The control message *)

Lemma strncmp_prefix (b a : string) :
  strncmp_eq a b (String.length b) = String.prefix b a.
Proof.
  revert a. induction b as [|y b IH]; intros a; cbn.
  - now destruct a.
  - destruct a as [|x a]; cbn; [reflexivity|].
    rewrite IH. destruct (Ascii.ascii_dec y x) as [->|N].
    + now rewrite Ascii.eqb_refl.
    + destruct (Ascii.eqb x y) eqn:E; [|reflexivity].
      apply Ascii.eqb_eq in E. congruence.
Qed.

(** X2. [updater_control_msg] answers TRUE exactly for the commands that
    begin with [check], whatever follows.  It then hides the icon, keeps
    the plug-in's fields, updates pending included, and starts a check only
    when the network probe passes.  Any other command leaves the world as
    it is. *)
Theorem control_msg_check_prefix (cmd : string) (w : World) :
  let r := eval (updater_control_msg cmd) w in
  let w' := exec (updater_control_msg cmd) w in
  (r = true <-> exists rest, cmd = ("check" ++ rest)%string)
  /\ (r = false -> w' = w)
  /\ (r = true ->
      shown w' = false /\ sensitive w' = false /\ up w' = up w
      /\ inflight w'
         = (if eval net_available w then inflight w ++ [PThread]
            else inflight w)).
Proof.
  assert (P : strncmp_eq cmd "check" 5 = String.prefix "check" cmd)
    by apply (strncmp_prefix "check" cmd).
  unfold eval, exec, updater_control_msg. rewrite P.
  destruct (String.prefix "check" cmd) eqn:E.
  - split; [|split].
    + split; [intros _; now apply prefix_app|].
      intros _. io. rewrite andb_false_r. cbn. probes; reflexivity.
    + io. rewrite andb_false_r. cbn. probes.
    + intros _. io. rewrite andb_false_r. cbn.
      probes; repeat split; reflexivity.
  - split; [|split].
    + split; [discriminate|]. intros H. apply prefix_app in H. congruence.
    + reflexivity.
    + discriminate.
Qed.
(** ** The periodic check *)

(** X3. When the main loop calls the periodic source, the source stays and
    is due again one period after the call, not earlier; no other source is
    added.  A check starts only if the network probe passes: a periodic
    check that finds no network is dropped until the next period. *)
Theorem periodic_check_rearms (id secs due : Z) (w : World) :
  List.find (fun s => src_id s =? id) (sources w)
  = Some (mkSource id (Some secs) due cb_periodic_check) ->
  due <= now w ->
  exists w', dispatch id w = Some w'
    /\ List.find (fun s => src_id s =? id) (sources w')
       = Some (mkSource id (Some secs) (now w + secs) cb_periodic_check)
    /\ List.length (sources w') = List.length (sources w)
    /\ up w' = up w
    /\ inflight w'
       = (if eval net_available w then inflight w ++ [PThread]
          else inflight w)
    /\ (forall dt, 0 <= dt < secs -> run [Tick dt; Dispatch id] w' = None).
Proof.
  intros F D.
  assert (E : exists w', dispatch id w = Some w'
                /\ sources w' = List.map (rearm id (now w)) (sources w)
                /\ now w' = now w /\ up w' = up w
                /\ inflight w'
                   = (if eval net_available w then inflight w ++ [PThread]
                      else inflight w)).
  { unfold dispatch. rewrite F. unfold ready. cbn [src_secs src_due src_cb].
    apply Z.leb_le in D. rewrite D. cbn [run_callback].
    io. probes; eexists; repeat split; reflexivity. }
  destruct E as [w' [Dp [S [N [U I]]]]].
  assert (F' : find (fun s => src_id s =? id) (sources w')
               = Some (mkSource id (Some secs) (now w + secs) cb_periodic_check)).
  { rewrite S, find_rearm, F. cbn. unfold rearm. cbn. now rewrite Z.eqb_refl. }
  exists w'. split; [exact Dp|]. split; [exact F'|].
  split; [now rewrite S, length_map|]. split; [exact U|]. split; [exact I|].
  intros dt H. cbn [run step]. destruct (0 <=? dt) eqn:P; [|lia].
  unfold dispatch. cbn [sources with_now]. rewrite F'. unfold ready. cbn.
  rewrite N. destruct (now w + secs <=? now w + dt) eqn:L; [|reflexivity].
  apply Z.leb_le in L. lia.
Qed.
(** ** The timer field and the main loop *)

Lemma constructor_shape (w : World) :
  let w' := exec updater_constructor w in
  let hours := match settings w with Some h => h | None => 24 end in
  interval (up w') = hours /\ now w' = now w
  /\ n_updates (up w') = 0 /\ ids (up w') = None
  /\ timer (up w') = (if hours =? 0 then 0 else next_id w + 1)
  /\ sources w'
     = sources w ++ mkSource (next_id w) None (now w) cb_init_check
         :: (if hours =? 0 then []
             else [periodic_source (next_id w + 1) (now w) hours]).
Proof.
  io. destruct (settings w) as [h|]; cbn; [destruct (h =? 0); cbn|];
    rewrite <- ?app_assoc; repeat split; reflexivity.
Qed.

Lemma find_rearm_other (k id t : Z) (l : list Source) :
  List.find (fun s => src_id s =? k) (List.map (rearm id t) l)
  = option_map (rearm id t) (List.find (fun s => src_id s =? k) l).
Proof.
  induction l as [|s l IH]; cbn; [reflexivity|].
  rewrite rearm_id. destruct (src_id s =? k); [reflexivity | exact IH].
Qed.

Lemma find_app_some {A} (f : A -> bool) (l l' : list A) (x : A) :
  List.find f l = Some x -> List.find f (l ++ l') = Some x.
Proof.
  induction l as [|y l IH]; cbn; [discriminate|].
  destruct (f y); [trivial | exact IH].
Qed.

Lemma find_filter_other (id other : Z) (l : list Source) :
  id <> other ->
  List.find (fun s => src_id s =? id)
            (List.filter (fun s => negb (src_id s =? other)) l)
  = List.find (fun s => src_id s =? id) l.
Proof.
  intros N. induction l as [|s l IH]; cbn; [reflexivity|].
  destruct (src_id s =? other) eqn:E; cbn.
  - apply Z.eqb_eq in E.
    destruct (src_id s =? id) eqn:E'; [apply Z.eqb_eq in E'; congruence|].
    exact IH.
  - destruct (src_id s =? id); [reflexivity | exact IH].
Qed.

Lemma periodic_check_again (w : World) :
  eval (run_callback cb_periodic_check) w = true.
Proof. cbn [run_callback]. io. probes; reflexivity. Qed.

(** What a dispatch does to the sources, whatever the callback. *)
Lemma dispatch_sources (id : Z) (w w' : World) :
  dispatch id w = Some w' ->
  exists s again extra,
    List.find (fun s => src_id s =? id) (sources w) = Some s
    /\ up w' = up w
    /\ sources w'
       = (if again : bool
          then List.map (rearm id (now w)) (sources w ++ extra)
          else List.filter (fun s => negb (src_id s =? id)) (sources w ++ extra))
    /\ (forall x, In x extra -> src_cb x = cb_net_check)
    /\ (src_cb s = cb_periodic_check -> again = true).
Proof.
  unfold dispatch.
  destruct (find _ _) as [s|]; [|discriminate].
  destruct (ready s w); [|discriminate].
  pose proof (callback_frame (src_cb s) (emit (EvDispatch (src_cb s)) w)) as F.
  unfold exec in F.
  destruct (run_callback (src_cb s) _) as [again w1] eqn:RC. cbn in F.
  destruct F as [U [N [_ F]]].
  assert (P : src_cb s = cb_periodic_check -> again = true).
  { intros C. rewrite C in RC.
    pose proof (periodic_check_again (emit (EvDispatch cb_periodic_check) w))
      as A.
    unfold eval in A. rewrite RC in A. exact A. }
  intros H.
  destruct F as [[S _]|[_ [S _]]].
  - exists s, again, []. rewrite app_nil_r.
    split; [reflexivity|].
    destruct again; injection H as <-; cbn; rewrite ?S, ?N; cbn;
      (split; [exact U|]); (split; [reflexivity|]); (split; [|exact P]);
      intros x [].
  - exists s, again, [net_poll (next_id w) (now w)].
    split; [reflexivity|].
    destruct again; injection H as <-; cbn; rewrite ?S, ?N; cbn;
      (split; [exact U|]); (split; [reflexivity|]); (split; [|exact P]);
      intros x [<-|[]]; reflexivity.
Qed.

Lemma timer_coherent_step (a : Action) (w w' : World) :
  wf w -> timer_coherent w -> step a w = Some w' -> timer_coherent w'.
Proof.
  intros W T.
  destruct (plain a) eqn:Pl.
  { intros S1. destruct (step_frame _ _ _ Pl S1) as [Sr [_ [Tm Iv]]].
    unfold timer_coherent, no_periodic in *. rewrite Sr, Tm, Iv. exact T. }
  destruct a as [dt|id| |task res|task res|cmd| | | | |hours];
    try discriminate; unfold step.
  - intros D.
    destruct (dispatch_sources _ _ _ D) as [s [again [extra [F [U [S [X P]]]]]]].
    unfold timer_coherent in *. rewrite U.
    destruct (timer (up w) =? 0) eqn:T0.
    + destruct T as [I NP]. split; [exact I|].
      intros x H. rewrite S in H.
      assert (NX : forall y, In y (sources w ++ extra) ->
                             src_cb y <> cb_periodic_check).
      { intros y Hy. apply in_app_or in Hy as [Hy|Hy]; [now apply NP|].
        rewrite (X y Hy). discriminate. }
      destruct again.
      * apply in_map_iff in H as [y [<- H]]. rewrite rearm_cb. now apply NX.
      * apply filter_In in H as [H _]. now apply NX.
    + destruct T as [I [due Fp]]. split; [exact I|].
      apply (find_app_some _ _ extra) in Fp as Fp'.
      rewrite S. destruct again.
      * rewrite find_rearm_other, Fp'. cbn. unfold rearm. cbn.
        destruct (timer (up w) =? id); eexists; reflexivity.
      * assert (Ne : timer (up w) <> id).
        { intros E. rewrite <- E in F. rewrite F in Fp. injection Fp as ->.
          specialize (P eq_refl). discriminate. }
        rewrite (find_filter_other _ _ _ Ne).
        now exists due.
  - intros [= <-].
    set (w0 := with_up (set_interval hours) w).
    assert (W0 : wf w0) by (apply (wf_same_sources w); auto).
    destruct (apply_configuration_sources w0) as [S [Tm [I _]]].
    destruct W0 as [P0 [I0 T1]].
    change (interval (up w0)) with hours in *.
    change (timer (up w0)) with (timer (up w)) in *.
    change (sources w0) with (sources w) in *.
    change (next_id w0) with (next_id w) in *.
    change (now w0) with (now w) in *.
    set (old := if timer (up w) =? 0 then sources w
                else filter (fun s => negb (src_id s =? timer (up w)))
                            (sources w)) in *.
    assert (K : forall s, In s old ->
                  In s (sources w) /\ src_cb s <> cb_periodic_check).
    { intros s H. unfold old in H. destruct (timer (up w) =? 0) eqn:T0.
      - split; [exact H|]. intros C. apply Z.eqb_eq in T0.
        specialize (I0 s H). specialize (T1 s H C). lia.
      - apply filter_In in H as [H N]. split; [exact H|]. intros C.
        apply negb_true_iff, Z.eqb_neq in N. now apply N, T1. }
    unfold timer_coherent, no_periodic. rewrite Tm, I.
    destruct (hours =? 0) eqn:H0.
    + cbn. apply Z.eqb_eq in H0. split; [exact H0|].
      intros s H. rewrite S, app_nil_r in H. now apply K.
    + apply Z.eqb_neq in H0.
      destruct (next_id w =? 0) eqn:N0; [apply Z.eqb_eq in N0; lia|].
      split; [exact H0|]. rewrite S.
      exists (now w + guint_of_Z (hours * SECS_PER_HOUR)).
      change (next_id w) with
        (src_id (periodic_source (next_id w) (now w) hours)) at 1.
      apply find_fresh. intros s H. destruct (K s H) as [H' _].
      specialize (I0 s H'). cbn. lia.
Qed.

Lemma timer_coherent_start (orc : nat -> string -> Z) (cfg : option Z) :
  timer_coherent (start orc cfg).
Proof.
  unfold start.
  destruct (constructor_shape (boot orc cfg)) as [I [_ [_ [_ [T S]]]]].
  unfold timer_coherent, no_periodic. rewrite I, T, S.
  change (settings (boot orc cfg)) with cfg.
  set (hours := match cfg with Some h => h | None => 24 end).
  destruct (hours =? 0) eqn:H0; cbn.
  - apply Z.eqb_eq in H0. split; [exact H0|].
    intros s [<-|[]]. discriminate.
  - apply Z.eqb_neq in H0. split; [exact H0|]. eexists. reflexivity.
Qed.

(** X4. In every world the plug-in can reach, [timer] is 0 exactly when
    [interval] is 0, and then no source calls [periodic_check]; otherwise
    [timer] is the id of a source in the main loop that calls
    [periodic_check] with the period [interval] hours (as the [guint]
    number of seconds): the field never names a source that is gone. *)
Theorem timer_names_the_periodic_source (w : World) :
  reachable w ->
  timer_coherent w
  /\ (timer (up w) = 0 <-> interval (up w) = 0)
  /\ wf w.
Proof.
  intros [orc [cfg [acts R]]].
  assert (H : wf w /\ timer_coherent w).
  { pose proof (conj (wf_start orc cfg) (timer_coherent_start orc cfg)) as H0.
    revert R H0. generalize (start orc cfg).
    induction acts as [|a acts IH]; intros w0 R [W0 T0]; cbn in R.
    - injection R as <-. now split.
    - destruct (step a w0) as [w1|] eqn:S1; [|discriminate].
      apply (IH _ R). split.
      + exact (wf_step _ _ _ W0 S1).
      + exact (timer_coherent_step _ _ _ W0 T0 S1). }
  destruct H as [W T]. split; [exact T|]. split; [|exact W].
  unfold timer_coherent in T.
  destruct (timer (up w) =? 0) eqn:T0.
  - apply Z.eqb_eq in T0. destruct T as [I _]. now split.
  - apply Z.eqb_neq in T0. destruct T as [I _]. split; intros; contradiction.
Qed.
(** ** The stored interval *)

(** X5. The interval survives a reload: [updater_apply_configuration]
    stores it, and a constructor run on the stored settings reads it back
    and arms the timer for it, or arms none when it is 0.  With no stored
    interval the constructor takes 24 hours. *)
Theorem interval_survives_reload (w : World) :
  let stored := exec updater_apply_configuration w in
  let reloaded := exec updater_constructor stored in
  settings stored = Some (interval (up w))
  /\ interval (up reloaded) = interval (up w)
  /\ (if interval (up w) =? 0 then timer (up reloaded) = 0
      else In (mkSource (timer (up reloaded))
                 (Some (guint_of_Z (interval (up w) * SECS_PER_HOUR)))
                 (now w + guint_of_Z (interval (up w) * SECS_PER_HOUR))
                 cb_periodic_check)
              (sources reloaded))
  /\ interval (up (exec updater_constructor w))
     = match settings w with Some hours => hours | None => 24 end.
Proof.
  intros stored reloaded.
  destruct (apply_configuration_sources w) as [_ [_ [_ [N S]]]].
  fold stored in N, S.
  destruct (constructor_shape stored) as [I [_ [_ [_ [T Sr]]]]].
  fold reloaded in I, T, Sr. rewrite S in I, T, Sr. rewrite N in Sr.
  split; [exact S|]. split; [exact I|]. split.
  - destruct (interval (up w) =? 0); [exact T|].
    rewrite Sr, T. apply in_or_app. right. right. now left.
  - now destruct (constructor_shape w) as [I' _].
Qed.

(** ** The two ways to install *)

(** X6. The dialog's install button does what closing the dialog and then
    choosing the menu's install entry does, except for the failure box: the
    same probes are made and the same number of installers spawned, and
    when both gates pass the resulting worlds are equal. *)
Theorem dialog_install_is_close_then_install (w : World) :
  let a := exec handle_close_and_install w in
  let b := exec install_updates (exec handle_close_update_dialog w) in
  up a = up b /\ ticks a = ticks b
  /\ count is_spawn a = count is_spawn b
  /\ List.filter (fun e => negb (is_message e)) (trace a)
     = List.filter (fun e => negb (is_message e)) (trace b)
  /\ (eval net_available w = true ->
      eval clock_synced (exec net_available w) = true -> a = b).
Proof.
  io. destruct (update_dlg (up w)); cbn; probes; repeat split;
    intros; probes; reflexivity.
Qed.
(** ** The stages of a check *)

Lemma remove_first_stage (f : Pending -> bool) (p : Pending) (l : list Pending) :
  (forall q, Pending_eqb p q = true -> f q = f p) ->
  List.existsb (Pending_eqb p) l = true ->
  (List.length (List.filter f (remove_first p l)) + (if f p then 1 else 0)
   = List.length (List.filter f l))%nat.
Proof.
  intros R. induction l as [|q l IH]; cbn; [discriminate|].
  destruct (Pending_eqb p q) eqn:E; cbn.
  - intros _. rewrite (R q E). destruct (f p); cbn; lia.
  - intros H. specialize (IH H). destruct (f q); cbn; lia.
Qed.

Lemma stage_respects (p q : Pending) :
  Pending_eqb p q = true ->
  is_pthread q = is_pthread p /\ is_prefresh q = is_prefresh p
  /\ is_pget q = is_pget p.
Proof. destruct p, q; cbn; intros; try discriminate; now repeat split. Qed.

(** What a callback adds to the stages and to the counts: at most one new
    thread, and then a passed probe with it. *)
Lemma callback_ledger (cb : callback) (w : World) :
  let w' := exec (run_callback cb) w in
  exists k : nat,
    (k <= 1)%nat
    /\ inflight w' = inflight w ++ List.repeat PThread k
    /\ count is_thread_new w' = (count is_thread_new w + k)%nat
    /\ count is_refresh w' = count is_refresh w
    /\ count is_get_updates w' = count is_get_updates w
    /\ (count is_net_ok w + k <= count is_net_ok w')%nat.
Proof.
  destruct cb; cbn [run_callback]; io; rewrite ?andb_false_r; cbn; probes;
    first [ exists 1%nat; cbn; repeat split; lia
          | exists 0%nat; cbn; rewrite app_nil_r; repeat split; lia ].
Qed.

Lemma control_msg_ledger (cmd : string) (w : World) :
  let w' := exec (updater_control_msg cmd) w in
  exists k : nat,
    (k <= 1)%nat
    /\ inflight w' = inflight w ++ List.repeat PThread k
    /\ count is_thread_new w' = (count is_thread_new w + k)%nat
    /\ count is_refresh w' = count is_refresh w
    /\ count is_get_updates w' = count is_get_updates w
    /\ (count is_net_ok w + k <= count is_net_ok w')%nat.
Proof.
  io; rewrite ?andb_false_r; cbn; probes;
    first [ exists 1%nat; cbn; repeat split; lia
          | exists 0%nat; cbn; rewrite app_nil_r; repeat split; lia ].
Qed.

Lemma install_ledger (w : World) :
  (let w' := exec install_updates w in
   inflight w' = inflight w
   /\ count is_thread_new w' = count is_thread_new w
   /\ count is_refresh w' = count is_refresh w
   /\ count is_get_updates w' = count is_get_updates w
   /\ (count is_net_ok w <= count is_net_ok w')%nat)
  /\ (let w' := exec handle_close_and_install w in
   inflight w' = inflight w
   /\ count is_thread_new w' = count is_thread_new w
   /\ count is_refresh w' = count is_refresh w
   /\ count is_get_updates w' = count is_get_updates w
   /\ (count is_net_ok w <= count is_net_ok w')%nat).
Proof. io. split; probes; repeat split; lia. Qed.

Lemma completion_ledger (task : nat) (res : Finish) (w : World) :
  (let w' := exec refresh_update_cache w in
   inflight w' = inflight w ++ [PRefreshCache (next_task w)]
   /\ count is_thread_new w' = count is_thread_new w
   /\ count is_refresh w' = S (count is_refresh w)
   /\ count is_get_updates w' = count is_get_updates w
   /\ count is_net_ok w' = count is_net_ok w)
  /\ (let w' := exec (refresh_cache_done task res) w in
   exists k : nat,
     (k <= 1)%nat
     /\ inflight w' = inflight w ++ List.repeat (PGetUpdates task) k
     /\ count is_thread_new w' = count is_thread_new w
     /\ count is_refresh w' = count is_refresh w
     /\ count is_get_updates w' = (count is_get_updates w + k)%nat
     /\ count is_net_ok w' = count is_net_ok w)
  /\ (let w' := exec (check_updates_done task res) w in
   inflight w' = inflight w
   /\ count is_thread_new w' = count is_thread_new w
   /\ count is_refresh w' = count is_refresh w
   /\ count is_get_updates w' = count is_get_updates w
   /\ count is_net_ok w' = count is_net_ok w).
Proof.
  split; [|split].
  - io. repeat split; reflexivity.
  - destruct res; io;
      [exists 0%nat; cbn; rewrite app_nil_r | exists 1%nat; cbn];
      repeat split; lia.
  - destruct res; io; [now repeat split|]. probes; repeat split; reflexivity.
Qed.

Lemma stage_app (f : Pending -> bool) (l l' : list Pending) :
  List.length (List.filter f (l ++ l'))
  = (List.length (List.filter f l) + List.length (List.filter f l'))%nat.
Proof. now rewrite filter_app, length_app. Qed.

Lemma pipeline_ordered_step (a : Action) (w w' : World) :
  pipeline_ordered w -> step a w = Some w' -> pipeline_ordered w'.
Proof.
  intros PO0. pose proof PO0 as [A [B [C D]]]. unfold at_stage in A, B, C.
  destruct a as [dt|id| |task res|task res|cmd| | | | |hours];
    unfold step, complete.
  - destruct (0 <=? dt); [|discriminate]. intros [= <-]. exact PO0.
  - unfold dispatch.
    destruct (find _ _) as [s|]; [|discriminate].
    destruct (ready s w); [|discriminate].
    destruct (callback_ledger (src_cb s) (emit (EvDispatch (src_cb s)) w))
      as [k [K [I [T [R [G N]]]]]].
    unfold exec in K, I, T, R, G, N.
    destruct (run_callback _ _) as [again w1]. cbn [snd] in *.
    change (inflight (emit (EvDispatch (src_cb s)) w)) with (inflight w) in I.
    change (count is_thread_new (emit (EvDispatch (src_cb s)) w))
      with (count is_thread_new w) in T.
    change (count is_refresh (emit (EvDispatch (src_cb s)) w))
      with (count is_refresh w) in R.
    change (count is_get_updates (emit (EvDispatch (src_cb s)) w))
      with (count is_get_updates w) in G.
    change (count is_net_ok (emit (EvDispatch (src_cb s)) w))
      with (count is_net_ok w) in N.
    assert (PO : pipeline_ordered w1).
    { unfold pipeline_ordered, at_stage. rewrite I, T, R, G, !stage_app.
      unfold count in *.
      destruct k as [|[|k]]; [| |lia]; cbn; repeat split; lia. }
    destruct again; intros [= <-]; exact PO.
  - destruct (existsb _ _) eqn:X; [|discriminate]. intros [= <-].
    destruct (completion_ledger 0 (Failed EmptyString)
                (with_inflight (remove_first PThread) w))
      as [[I [T [R [G N]]]] _].
    unfold pipeline_ordered, at_stage, exec in *.
    rewrite I, T, R, G, N, !stage_app. cbn.
    pose proof (remove_first_stage is_pthread PThread _
                  (fun q E => proj1 (stage_respects _ _ E)) X).
    pose proof (remove_first_stage is_prefresh PThread _
                  (fun q E => proj1 (proj2 (stage_respects _ _ E))) X).
    pose proof (remove_first_stage is_pget PThread _
                  (fun q E => proj2 (proj2 (stage_respects _ _ E))) X).
    unfold count in *. cbn in *. repeat split; lia.
  - destruct (existsb _ _) eqn:X; [|discriminate]. intros [= <-].
    destruct (completion_ledger task res
                (with_inflight (remove_first (PRefreshCache task)) w))
      as [_ [[k [K [I [T [R [G N]]]]]] _]].
    unfold pipeline_ordered, at_stage, exec in *.
    rewrite I, T, R, G, N, !stage_app. cbn.
    pose proof (remove_first_stage is_pthread (PRefreshCache task) _
                  (fun q E => proj1 (stage_respects _ _ E)) X).
    pose proof (remove_first_stage is_prefresh (PRefreshCache task) _
                  (fun q E => proj1 (proj2 (stage_respects _ _ E))) X).
    pose proof (remove_first_stage is_pget (PRefreshCache task) _
                  (fun q E => proj2 (proj2 (stage_respects _ _ E))) X).
    unfold count in *. cbn in *. destruct k as [|[|k]]; [| |lia]; cbn; repeat split; lia.
  - destruct (existsb _ _) eqn:X; [|discriminate]. intros [= <-].
    destruct (completion_ledger task res
                (with_inflight (remove_first (PGetUpdates task)) w))
      as [_ [_ [I [T [R [G N]]]]]].
    unfold pipeline_ordered, at_stage, exec in *.
    rewrite I, T, R, G, N. cbn.
    pose proof (remove_first_stage is_pthread (PGetUpdates task) _
                  (fun q E => proj1 (stage_respects _ _ E)) X).
    pose proof (remove_first_stage is_prefresh (PGetUpdates task) _
                  (fun q E => proj1 (proj2 (stage_respects _ _ E))) X).
    pose proof (remove_first_stage is_pget (PGetUpdates task) _
                  (fun q E => proj2 (proj2 (stage_respects _ _ E))) X).
    unfold count in *. cbn in *. repeat split; lia.
  - intros [= <-].
    destruct (control_msg_ledger cmd w) as [k [K [I [T [R [G N]]]]]].
    unfold pipeline_ordered, at_stage. rewrite I, T, R, G, !stage_app.
    unfold count in *.
    destruct k as [|[|k]]; [| |lia]; cbn; repeat split; lia.
  - intros [= <-]. exact PO0.
  - intros [= <-].
    destruct (install_ledger w) as [[I [T [R [G N]]]] _].
    unfold pipeline_ordered, at_stage. rewrite I, T, R, G.
    unfold count in *. repeat split; lia.
  - intros [= <-]. unfold handle_close_update_dialog, exec, bind, get, when.
    cbn. destruct (update_dlg (up w)); exact PO0.
  - intros [= <-].
    destruct (install_ledger w) as [_ [I [T [R [G N]]]]].
    unfold pipeline_ordered, at_stage. rewrite I, T, R, G.
    unfold count in *. repeat split; lia.
  - intros [= <-].
    unfold pipeline_ordered, at_stage, count in *. io.
    destruct (timer (up w) =? 0); cbn; destruct (hours =? 0); cbn;
      repeat split; assumption.
Qed.
Lemma pipeline_ordered_start (orc : nat -> string -> Z) (cfg : option Z) :
  pipeline_ordered (start orc cfg).
Proof.
  destruct (start_shape orc cfg) as [_ [_ [_ [I [T _]]]]].
  unfold pipeline_ordered, at_stage, count. rewrite I, T. cbn.
  repeat split; lia.
Qed.

(** X7. In every world the plug-in can reach, the checks in flight are
    accounted for stage by stage: a thread made has not run yet or has
    requested one cache refresh; an update query was made only for a cache
    refresh that completed; a thread was made only after a network probe
    that passed.  So there are never more update queries than cache
    refreshes, more cache refreshes than threads, or more threads than
    passed probes. *)
Theorem checks_go_through_the_stages (w : World) :
  reachable w ->
  pipeline_ordered w
  /\ (count is_get_updates w <= count is_refresh w)%nat
  /\ (count is_refresh w <= count is_thread_new w)%nat
  /\ (count is_thread_new w <= count is_net_ok w)%nat.
Proof.
  intros [orc [cfg [acts R]]].
  assert (P : pipeline_ordered w).
  { pose proof (pipeline_ordered_start orc cfg) as P0.
    revert R P0. generalize (start orc cfg).
    induction acts as [|a acts IH]; intros w0 R P0; cbn in R.
    - now injection R as <-.
    - destruct (step a w0) as [w1|] eqn:S1; [|discriminate].
      exact (IH _ R (pipeline_ordered_step _ _ _ P0 S1)). }
  split; [exact P|]. destruct P as [A [B [C D]]]. repeat split; lia.
Qed.

(** ** The icon *)

Lemma callback_icon (cb : callback) (w : World) :
  let w' := exec (run_callback cb) (emit (EvDispatch cb) w) in
  n_updates (up w') = n_updates (up w)
  /\ match cb with
     | cb_init_check => shown w' = false /\ sensitive w' = false
     | _ => shown w' = shown w /\ sensitive w' = sensitive w
            /\ count (is_dispatch_of cb_init_check) w'
               = count (is_dispatch_of cb_init_check) w
     end.
Proof.
  destruct cb; cbn [run_callback]; io; rewrite ?andb_false_r; cbn; probes;
    repeat split; reflexivity.
Qed.

Lemma icon_frame (a : Action) (w w' : World) :
  icon_plain a = true -> step a w = Some w' ->
  shown w' = shown w /\ sensitive w' = sensitive w
  /\ n_updates (up w') = n_updates (up w)
  /\ count (is_dispatch_of cb_init_check) w'
     = count (is_dispatch_of cb_init_check) w.
Proof.
  destruct a as [dt|id| |task res|task res|cmd| | | | |hours];
    try discriminate; intros P; unfold step, complete.
  - destruct (0 <=? dt); [|discriminate]. now intros [= <-].
  - destruct (existsb _ _); [|discriminate]. now intros [= <-].
  - destruct (existsb _ _); [|discriminate]. intros [= <-].
    now destruct res.
  - destruct res; [|discriminate].
    destruct (existsb _ _); [|discriminate]. now intros [= <-].
  - now intros [= <-].
  - intros [= <-]. io. probes; repeat split; reflexivity.
  - intros [= <-]. io. probes; repeat split; reflexivity.
  - intros [= <-]. io. probes; repeat split; reflexivity.
  - intros [= <-]. io. probes; repeat split; reflexivity.
Qed.

Lemma control_msg_icon (cmd : string) (w : World) :
  let w' := exec (updater_control_msg cmd) w in
  (shown w' = false /\ sensitive w' = false) \/ w' = w.
Proof.
  unfold exec, updater_control_msg.
  destruct (strncmp_eq cmd "check" 5); [left | now right].
  io. rewrite andb_false_r. cbn. probes; split; reflexivity.
Qed.

Lemma icon_coherent_step (a : Action) (w w' : World) :
  icon_coherent w -> step a w = Some w' -> icon_coherent w'.
Proof.
  intros [E V].
  destruct (icon_plain a) eqn:Pl.
  { intros S1. destruct (icon_frame _ _ _ Pl S1) as [Sh [Se [N C]]].
    unfold icon_coherent. rewrite Sh, Se, N, C. now split. }
  destruct a as [dt|id| |task res|task res|cmd| | | | |hours];
    try discriminate; unfold step, complete.
  - unfold dispatch.
    destruct (find _ _) as [s|]; [|discriminate].
    destruct (ready s w); [|discriminate].
    pose proof (callback_icon (src_cb s) w) as F. unfold exec in F.
    destruct (run_callback _ _) as [again w1]. cbn [snd] in F.
    destruct F as [N F].
    assert (IC : icon_coherent w1).
    { unfold icon_coherent. destruct (src_cb s).
      - destruct F as [-> ->]. split; [reflexivity | discriminate].
      - destruct F as [-> [-> C]]. rewrite N, C. now split.
      - destruct F as [-> [-> C]]. rewrite N, C. now split. }
    destruct again; intros [= <-]; exact IC.
  - destruct res as [message|results]; [discriminate|].
    destruct (existsb _ _); [|discriminate]. intros [= <-].
    destruct (check_updates_done_publishes
                (with_inflight (remove_first (PGetUpdates task)) w) task results)
      as [N [_ [_ [_ [Sh [Se _]]]]]].
    change (icon_coherent
              (exec (check_updates_done task (Finished results))
                    (with_inflight (remove_first (PGetUpdates task)) w))).
    unfold icon_coherent. rewrite Sh, Se, N. split; [reflexivity|].
    intros H. left. apply negb_true_iff, Z.eqb_neq in H. exact H.
  - intros [= <-].
    unfold icon_coherent.
    destruct (control_msg_icon cmd w) as [[-> ->]| ->].
    + split; [reflexivity | discriminate].
    + now split.
Qed.

Lemma icon_coherent_start (orc : nat -> string -> Z) (cfg : option Z) :
  icon_coherent (start orc cfg).
Proof.
  destruct (start_shape orc cfg) as [_ [_ [_ [_ [T _]]]]].
  unfold icon_coherent, count. rewrite T. split; [|intros _; now right].
  unfold start, boot. io.
  destruct cfg as [hours|]; cbn; [destruct (hours =? 0)|]; reflexivity.
Qed.

(** X8. In every world the plug-in can reach, the icon is sensitive exactly
    when it is visible, and once [init_check] has run it is visible only
    while [n_updates] is not 0. *)
Theorem icon_only_with_updates (w : World) :
  reachable w ->
  sensitive w = shown w
  /\ (shown w = true ->
      (0 < count (is_dispatch_of cb_init_check) w)%nat ->
      n_updates (up w) <> 0).
Proof.
  intros [orc [cfg [acts R]]].
  assert (IC : icon_coherent w).
  { pose proof (icon_coherent_start orc cfg) as I0.
    revert R I0. generalize (start orc cfg).
    induction acts as [|a acts IH]; intros w0 R I0; cbn in R.
    - now injection R as <-.
    - destruct (step a w0) as [w1|] eqn:S1; [|discriminate].
      exact (IH _ R (icon_coherent_step _ _ _ I0 S1)). }
  destruct IC as [E V]. split; [exact E|].
  intros Sh C. destruct (V Sh) as [N|Z0]; [exact N | lia].
Qed.

(** ** The properties at work *)

Lemma reachable_has_updates : reachable w_has_updates.
Proof.
  exists (machine false true true false), None,
    [Dispatch 1; RunThread; RefreshCacheFinished 0 (Finished []);
     GetUpdatesFinished 0 (Finished [pkg_foo; pkg_bar])].
  vm_compute. reflexivity.
Qed.

Lemma reachable_unplugged : reachable w_unplugged.
Proof.
  exists (script [1; 0; 0; 1]), None,
    [Dispatch 1; RunThread; RefreshCacheFinished 0 (Finished []);
     GetUpdatesFinished 0 (Finished [pkg_foo; pkg_bar])].
  vm_compute. reflexivity.
Qed.

Lemma show_updates_reads_within_ids_witness :
  n_updates (up w_has_updates) = 1
  /\ exists l id, ids (up w_has_updates) = Some l
                  /\ List.nth_error l 0 = Some id.
Proof.
  destruct (show_updates_reads_within_ids w_has_updates reachable_has_updates)
    as [_ [_ A]].
  assert (N : n_updates (up w_has_updates) = 1) by (vm_compute; reflexivity).
  split; [exact N|]. apply (A 0). rewrite N. lia.
Defined.

Lemma control_msg_check_prefix_witness :
  shown w_unplugged = true
  /\ eval (updater_control_msg "checkpoint") w_unplugged = true
  /\ shown (exec (updater_control_msg "checkpoint") w_unplugged) = false
  /\ n_updates (up (exec (updater_control_msg "checkpoint") w_unplugged)) = 1
  /\ inflight (exec (updater_control_msg "checkpoint") w_unplugged) = []
  /\ exec (updater_control_msg "chec") w_unplugged = w_unplugged.
Proof.
  destruct (control_msg_check_prefix "checkpoint" w_unplugged) as [_ [_ A]].
  destruct (control_msg_check_prefix "chec" w_unplugged) as [_ [B _]].
  destruct (A eq_refl) as [A1 [_ [A2 A3]]].
  split; [reflexivity|]. split; [reflexivity|]. split; [exact A1|].
  split; [now rewrite A2|]. split; [exact A3|]. exact (B eq_refl).
Defined.

Lemma periodic_check_rearms_witness :
  exists w', dispatch 2 w_due = Some w'
    /\ List.find (fun s => src_id s =? 2) (sources w')
       = Some (mkSource 2 (Some 86400) 172800 cb_periodic_check)
    /\ inflight w' = [PThread].
Proof.
  destruct (periodic_check_rearms 2 86400 86400 w_due eq_refl)
    as [w' [D [F [_ [_ [I _]]]]]]; [cbn; lia|].
  exists w'. split; [exact D|]. split; [exact F|]. exact I.
Defined.

Lemma timer_names_the_periodic_source_witness :
  timer (up w_has_updates) = 2 /\ timer_coherent w_has_updates.
Proof.
  destruct (timer_names_the_periodic_source w_has_updates reachable_has_updates)
    as [A _].
  split; [reflexivity | exact A].
Defined.

Lemma dialog_install_is_close_then_install_witness :
  update_dlg (up w_dialog) = true
  /\ exec handle_close_and_install w_dialog
     = exec install_updates (exec handle_close_update_dialog w_dialog).
Proof.
  destruct (dialog_install_is_close_then_install w_dialog) as [_ [_ [_ [_ A]]]].
  split; [reflexivity|]. exact (A eq_refl eq_refl).
Defined.

Lemma checks_go_through_the_stages_witness :
  count is_net_ok w_has_updates = 2%nat
  /\ count is_thread_new w_has_updates = 1%nat
  /\ pipeline_ordered w_has_updates.
Proof.
  destruct (checks_go_through_the_stages w_has_updates reachable_has_updates)
    as [A _].
  split; [reflexivity|]. split; [reflexivity | exact A].
Defined.

Lemma icon_only_with_updates_witness :
  shown w_has_updates = true /\ n_updates (up w_has_updates) <> 0.
Proof.
  destruct (icon_only_with_updates w_has_updates reachable_has_updates)
    as [_ A].
  assert (C : count (is_dispatch_of cb_init_check) w_has_updates = 1%nat)
    by (vm_compute; reflexivity).
  split; [reflexivity|]. apply A; [reflexivity|]. rewrite C. lia.
Defined.

(** * Properties of the installer *)

Ltac inst_unfold :=
  unfold Installer.step, Installer.callback_of,
    Installer.exec, Installer.eval, Installer.refresh_cache,
    Installer.compare_versions, Installer.start_install,
    Installer.install_done, Installer.close_end, Installer.quit,
    Installer.progress, Installer.pulse, Installer.error_handler,
    Installer.message, Installer.request,
    Installer.g_timeout_add_seconds_close_end, Installer.gtk_main_quit,
    Installer.pk_task_new, Installer.system, Installer.set_dlg,
    Installer.get_dlg, Installer.bind, Installer.ret,
    Installer.with_idle, Installer.with_close_due, Installer.with_requests,
    Installer.with_now in *.

Ltac inst := inst_unfold; cbn in *.

Lemma in_sequence_refresh (task : nat) (older : list Installer.Request) :
  in_sequence (Installer.ReqRefreshCache task :: older) -> older = [].
Proof.
  intros [t [E|[E|[ids [_ E]]]]]; now injection E.
Qed.

Lemma in_sequence_query (task : nat) (older : list Installer.Request) :
  in_sequence (Installer.ReqGetUpdates task :: older) ->
  older = [Installer.ReqRefreshCache task].
Proof.
  intros [t [E|[E|[ids [_ E]]]]]; try discriminate.
  now injection E as -> ->.
Qed.

Lemma sack_ids_not_empty (sack : PkPackageSack) :
  (0 <? pk_package_sack_get_size sack) = true ->
  pk_package_sack_get_ids sack <> [].
Proof.
  destruct sack; [discriminate | intros _; discriminate].
Qed.

(** Each event takes a session from one phase to a phase. *)
Lemma phase_step (e : Installer.Event) (s s' : Installer.State) :
  phase s -> reports_validly e -> Installer.step e s = Some s' -> phase s'.
Proof.
  intros P V S.
  destruct s as [dlg orc tk nw idl cd rq nt qt lg].
  destruct P as [I L R C D Q | r older d I L Sq R C D B Sh Q
                 | d I Sq R C D B Pb Sh Q | d due I Sq R C Du D B M Q
                 | I Sq R D Q];
    cbn in *; subst.
  - (* not started *)
    destruct e; inst; try discriminate.
    + injection S as <-.
      eapply ph_busy; cbn; try reflexivity. now exists nt; left.
    + destruct (0 <=? dt); [|discriminate]. injection S as <-.
      now apply ph_idle.
  - (* a request is under way *)
    destruct e; inst; try discriminate.
    + destruct (0 <=? dt); [|discriminate]. injection S as <-.
      now eapply ph_busy.
    + injection S as <-.
      destruct p as [role status pct]; cbn in *.
      assert (Bp : (pct =? -3) = false) by (apply Z.eqb_neq; lia).
      destruct role, status; cbn;
        repeat match goal with
          | |- context [if ?c then _ else _] => destruct c; cbn
          end;
        eapply ph_busy; cbn; try reflexivity; try eassumption.
    + injection S as <-.
      destruct r as [task|task|task ids], o as [msg|details|results]; cbn.
      * apply in_sequence_refresh in Sq as ->.
        eapply ph_error; cbn; try reflexivity. now exists task; left.
      * apply in_sequence_refresh in Sq as ->.
        eapply ph_error; cbn; try reflexivity. now exists task; left.
      * apply in_sequence_refresh in Sq as ->.
        eapply ph_busy; cbn; try reflexivity. exists task. right. now left.
      * eapply ph_error; cbn; try reflexivity. exact Sq.
      * eapply ph_error; cbn; try reflexivity. exact Sq.
      * apply in_sequence_query in Sq as ->.
        destruct (0 <? _) eqn:N; cbn.
        -- eapply ph_busy; cbn; try reflexivity.
           exists task. right. right. eexists. split; [|reflexivity].
           now apply sack_ids_not_empty.
        -- eapply ph_done; cbn; try reflexivity; try lia.
           exists task. right. now left.
      * eapply ph_error; cbn; try reflexivity. exact Sq.
      * eapply ph_error; cbn; try reflexivity. exact Sq.
      * eapply ph_done; cbn; try reflexivity; try lia. exact Sq.
    + rewrite B in S. discriminate.
  - (* an error is shown *)
    destruct e; inst; try discriminate.
    + destruct (0 <=? dt); [|discriminate]. injection S as <-.
      now eapply ph_error.
    + rewrite B, Sh in S. cbn in S. injection S as <-.
      now apply ph_quit.
  - (* the session has ended and closes *)
    destruct e; inst; try discriminate.
    + destruct (0 <=? dt) eqn:P0; [|discriminate]. injection S as <-.
      eapply ph_done; cbn; try reflexivity; try eassumption. lia.
    + destruct (due <=? nw); cbn in S; [|discriminate]. injection S as <-.
      now apply ph_quit.
    + rewrite B in S. discriminate.
  - (* the main loop has been left *)
    destruct e; inst; discriminate.
Qed.

Lemma phase_run (es : list Installer.Event) (s s' : Installer.State) :
  phase s -> Forall reports_validly es -> Installer.run es s = Some s' ->
  phase s'.
Proof.
  revert s. induction es as [|e es IH]; intros s P V; cbn.
  - now intros [= <-].
  - inversion V as [|? ? V1 V2]; subst.
    destruct (Installer.step e s) as [s1|] eqn:S1; [|discriminate].
    apply IH; [exact (phase_step _ _ _ P V1 S1) | exact V2].
Qed.

Lemma phase_main (orc : nat -> string -> Z) : phase (Installer.main orc).
Proof. now apply ph_idle. Qed.
(** X9. In every session, however the requests end and whatever progress
    is reported with a percentage of -1 or more, the installer asks
    PackageKit for a cache refresh, then for the updates, then for the
    update of a list of ids that is not empty, in this order and on one
    task; at most one request is outstanding, and it is the one made
    last. *)
Theorem installer_requests_in_order (orc : nat -> string -> Z)
    (es : list Installer.Event) (s : Installer.State) :
  Forall reports_validly es ->
  Installer.run es (Installer.main orc) = Some s ->
  (Installer.log s = [] \/ in_sequence (Installer.log s))
  /\ (Installer.requests s = []
      \/ exists r older, Installer.requests s = [r]
                         /\ Installer.log s = r :: older).
Proof.
  intros V R. pose proof (phase_run _ _ _ (phase_main orc) V R) as P.
  destruct P as [I L Rq C D Q | r older d I L Sq Rq C D B Sh Q
                 | d I Sq Rq C D B Pb Sh Q | d due I Sq Rq C Du D B M Q
                 | I Sq Rq D Q].
  - split; [now left | now left].
  - split; [right; now rewrite L | right; now exists r, older].
  - split; [now right | now left].
  - split; [now right | now left].
  - split; [now right | now left].
Qed.

(** X10. A session in which progress is reported with a percentage of -1
    or more never hangs.  Once started, with nothing outstanding and the
    main loop running, either the box shows the OK button, and a click ends
    the main loop, or it says that the system is up to date and the timeout
    ends the main loop two seconds later at most.  In such a session the
    OK button is visible only then, with no request outstanding and no
    timeout armed; the main loop is left once, with the dialog destroyed. *)
Theorem installer_offers_an_exit (orc : nat -> string -> Z)
    (es : list Installer.Event) (s : Installer.State) :
  Forall reports_validly es ->
  Installer.run es (Installer.main orc) = Some s ->
  (Installer.idle s = false -> Installer.requests s = [] ->
   Installer.quits s = 0%nat ->
   exists d, Installer.msg_dlg s = Some d
     /\ ((Installer.msg_btn d = true
          /\ exists s', Installer.step Installer.ClickOk s = Some s'
                        /\ Installer.quits s' = 1%nat
                        /\ Installer.msg_dlg s' = None)
         \/ (Installer.msg_btn d = false
             /\ Installer.msg_msg d = "System is up to date"
             /\ exists s',
                  Installer.run [Installer.Tick 2; Installer.CloseTimer] s
                  = Some s'
                  /\ Installer.quits s' = 1%nat
                  /\ Installer.msg_dlg s' = None)))
  /\ (forall d, Installer.msg_dlg s = Some d -> Installer.msg_btn d = true ->
        Installer.requests s = [] /\ Installer.close_due s = [])
  /\ (Installer.quits s <= 1)%nat
  /\ (Installer.quits s = 1%nat -> Installer.msg_dlg s = None).
Proof.
  intros V R. pose proof (phase_run _ _ _ (phase_main orc) V R) as P.
  destruct s as [dlg o tk nw idl cd rq nt qt lg].
  destruct P as [I L Rq C D Q | r older d I L Sq Rq C D B Sh Q
                 | d I Sq Rq C D B Pb Sh Q | d due I Sq Rq C Du D B M Q
                 | I Sq Rq D Q];
    cbn in *; subst.
  - split; [discriminate|]. split; [discriminate|]. split; [lia | discriminate].
  - split; [discriminate|]. split; [|split; [lia | discriminate]].
    intros d' [= <-] B'. congruence.
  - split; [|split; [|split; [lia | discriminate]]].
    + intros _ _ _. exists d. split; [reflexivity|]. left.
      split; [exact B|]. inst. rewrite B, Sh. cbn.
      eexists. split; [reflexivity|]. now split.
    + intros d' [= <-] _. now split.
  - split; [|split; [|split; [lia | discriminate]]].
    + intros _ _ _. exists d. split; [reflexivity|]. right.
      split; [exact B|]. split; [exact M|]. cbn. inst.
      destruct (due <=? nw + 2) eqn:L; [|apply Z.leb_gt in L; lia]. cbn.
      eexists. split; [reflexivity|]. now split.
    + intros d' [= <-] B'. congruence.
  - split; [discriminate|]. split; [discriminate|]. split; [lia | reflexivity].
Qed.

(** X11. A failure of any of the three requests, whether a [GError] or an
    error code in the results, stops the session at that step: the box
    names the step and gives the failure's message, shows the OK button
    and no progress bar, and makes no request, arms no timeout, runs no
    probe and does not leave the main loop. *)
Theorem installer_failure_stops (task : nat) (o : Installer.Outcome)
    (text : string) (s : Installer.State) :
  failure_text o = Some text ->
  shows_error "updating cache" text s
    (Installer.exec (Installer.compare_versions task o) s)
  /\ shows_error "comparing versions" text s
       (Installer.exec (Installer.start_install task o) s)
  /\ shows_error "installing packages" text s
       (Installer.exec (Installer.install_done task o) s).
Proof.
  intros F. unfold shows_error.
  destruct o as [msg|details|results]; cbn in F; try discriminate;
    injection F as <-; inst;
    destruct (Installer.msg_dlg s); cbn;
    repeat split; try reflexivity; eexists; repeat split; reflexivity.
Qed.




(** X13. [progress] touches nothing but the dialog, and never destroys
    it.  Without a dialog, and for a role other than the five it names, it
    does nothing at all; for a percentage of -1 or more it never brings
    the OK button up. *)
Theorem progress_only_touches_the_dialog (p : Installer.PkProgress)
    (s : Installer.State) :
  let s' := Installer.exec (Installer.progress p) s in
  s' = Installer.exec (Installer.set_dlg (Installer.msg_dlg s')) s
  /\ (Installer.msg_dlg s = None -> s' = s)
  /\ (Installer.pk_progress_get_role p = Installer.PK_ROLE_ENUM_other ->
      s' = s)
  /\ (forall d, Installer.msg_dlg s = Some d ->
        exists d', Installer.msg_dlg s' = Some d'
          /\ (-1 <= Installer.pk_progress_get_percentage p ->
              Installer.msg_btn d' = true -> Installer.msg_btn d = true)).
Proof.
  destruct s as [dlg o tk nw idl cd rq nt qt lg].
  destruct p as [role status pct]. inst.
  destruct dlg as [d|]; cbn.
  - destruct role, status; cbn;
      repeat match goal with
        | |- context [if ?c then _ else _] => destruct c eqn:?; cbn
        end;
      (split; [reflexivity|]); (split; [discriminate|]);
      (split; [try discriminate; reflexivity|]);
      intros d0 [= <-]; eexists; (split; [reflexivity|]); cbn;
      intros V B; try exact B;
      apply Z.eqb_eq in B; lia.
  - repeat split; try reflexivity. discriminate.
Qed.

Lemma one_control_step (e : Installer.Event) (s s' : Installer.State) :
  one_control s -> Installer.step e s = Some s' -> one_control s'.
Proof.
  assert (X : forall prog, (prog =? -3) && (-2 <? prog) = false).
  { intros prog. destruct (prog =? -3) eqn:E; [|reflexivity].
    apply Z.eqb_eq in E. subst. reflexivity. }
  unfold one_control. intros C S.
  destruct s as [dlg o tk nw idl cd rq nt qt lg]. cbn in C.
  unfold Installer.step in S. cbn in S.
  destruct (negb (qt =? 0)%nat); [discriminate|].
  destruct e as [|dt| |p|out|]; cbn in S.
  - destruct idl; [|discriminate]. injection S as <-. inst.
    destruct dlg; cbn; reflexivity.
  - destruct (0 <=? dt); [|discriminate]. now injection S as <-.
  - destruct (Installer.take_due nw cd); [|discriminate].
    injection S as <-. inst. destruct dlg; exact I.
  - destruct rq; [discriminate|]. injection S as <-.
    destruct p as [role status pct]. inst.
    destruct dlg as [d|]; cbn; [|exact I].
    destruct role, status; cbn;
      repeat match goal with
        | |- context [if ?c then _ else _] => destruct c eqn:?; cbn
        end;
      solve [exact C | apply X].
  - destruct rq as [|r rest]; [discriminate|]. injection S as <-.
    destruct r, out; inst; destruct dlg; cbn;
      repeat match goal with
        | |- context [if ?c then _ else _] => destruct c eqn:?; cbn
        end;
      reflexivity.
  - destruct dlg as [d|]; [|discriminate].
    destruct (Installer.msg_btn d && Installer.dlg_shown d); [|discriminate].
    injection S as <-. exact I.
Qed.

(** X14. Whatever happens in a session, the dialog never shows the OK
    button and the progress bar together. *)
Theorem installer_one_control (orc : nat -> string -> Z)
    (es : list Installer.Event) (s : Installer.State) :
  Installer.run es (Installer.main orc) = Some s -> one_control s.
Proof.
  assert (C0 : one_control (Installer.main orc)) by exact I.
  revert C0. generalize (Installer.main orc).
  induction es as [|e es IH]; intros s0 C0; cbn.
  - now intros [= <-].
  - destruct (Installer.step e s0) as [s1|] eqn:S1; [|discriminate].
    apply IH. exact (one_control_step _ _ _ C0 S1).
Qed.
(** ** The installer's properties at work *)

Lemma session_updates_valid : Forall reports_validly session_updates.
Proof. repeat constructor. cbn. lia. Qed.

Lemma session_failure_valid : Forall reports_validly session_failure.
Proof. repeat constructor. Qed.

Lemma session_failure_runs : Installer.run session_failure s_pc = Some s_failed.
Proof. vm_compute. reflexivity. Qed.

Lemma installer_requests_in_order_witness :
  exists s, Installer.run session_updates s_pc = Some s
    /\ Installer.log s
       = [Installer.ReqUpdatePackages 0 ["bar;3.0;armhf;"%string];
          Installer.ReqGetUpdates 0; Installer.ReqRefreshCache 0]
    /\ in_sequence (Installer.log s).
Proof.
  destruct (Installer.run session_updates s_pc) as [s|] eqn:R;
    [|vm_compute in R; discriminate].
  destruct (installer_requests_in_order _ _ _ session_updates_valid R)
    as [[E|Sq] _].
  - vm_compute in R. injection R as <-. discriminate.
  - exists s. split; [reflexivity|]. split; [|exact Sq].
    vm_compute in R. injection R as <-. reflexivity.
Defined.

Lemma installer_offers_an_exit_witness :
  exists d s', Installer.msg_dlg s_failed = Some d
    /\ Installer.msg_msg d = "Error updating cache - no route to host"
    /\ Installer.step Installer.ClickOk s_failed = Some s'
    /\ Installer.quits s' = 1%nat.
Proof.
  destruct (installer_offers_an_exit _ _ _ session_failure_valid
              session_failure_runs) as [A _].
  destruct A as [d [D [[B [s' [S [Q _]]]]|[B _]]]];
    try (vm_compute; reflexivity).
  - exists d, s'. split; [exact D|]. split; [|split; [exact S | exact Q]].
    vm_compute in D. injection D as <-. reflexivity.
  - vm_compute in D. injection D as <-. discriminate.
Defined.

Lemma installer_failure_stops_witness :
  shows_error "comparing versions" "backend died" s_failed
    (Installer.exec
       (Installer.start_install 0 (Installer.PkErr "backend died")) s_failed).
Proof.
  now destruct (installer_failure_stops 0 (Installer.PkErr "backend died")
                  "backend died" s_failed eq_refl) as [_ [A _]].
Defined.


Lemma progress_only_touches_the_dialog_witness :
  Installer.exec
    (Installer.progress
       (Installer.mkProgress Installer.PK_ROLE_ENUM_REFRESH_CACHE
          Installer.PK_STATUS_ENUM_LOADING_CACHE 10)) s_pc
  = s_pc
  /\ exists d', Installer.msg_dlg
                  (Installer.exec
                     (Installer.progress
                        (Installer.mkProgress
                           Installer.PK_ROLE_ENUM_REFRESH_CACHE
                           Installer.PK_STATUS_ENUM_LOADING_CACHE 10))
                     s_failed)
                = Some d'.
Proof.
  destruct (progress_only_touches_the_dialog
              (Installer.mkProgress Installer.PK_ROLE_ENUM_REFRESH_CACHE
                 Installer.PK_STATUS_ENUM_LOADING_CACHE 10) s_pc)
    as [_ [A _]].
  destruct (progress_only_touches_the_dialog
              (Installer.mkProgress Installer.PK_ROLE_ENUM_REFRESH_CACHE
                 Installer.PK_STATUS_ENUM_LOADING_CACHE 10) s_failed)
    as [_ [_ [_ B]]].
  split; [exact (A eq_refl)|].
  destruct (B _ eq_refl) as [d' [D _]]. now exists d'.
Defined.

Lemma installer_one_control_witness : one_control s_failed.
Proof. exact (installer_one_control _ _ _ session_failure_runs). Defined.

(** * Further properties across events *)

Lemma callback_spawn (cb : callback) (w : World) :
  let w' := exec (run_callback cb) (emit (EvDispatch cb) w) in
  count is_spawn w' = count is_spawn w
  /\ count is_message w' = count is_message w.
Proof.
  destruct cb; cbn [run_callback]; io; rewrite ?andb_false_r; cbn; probes;
    split; reflexivity.
Qed.

Lemma step_spawn (a : Action) (w w' : World) :
  step a w = Some w' ->
  (count is_spawn w' <= count is_spawn w + (if is_install a then 1 else 0))%nat
  /\ (count is_message w'
      <= count is_message w + (if is_menu_install a then 1 else 0))%nat.
Proof.
  destruct a as [dt|id| |task res|task res|cmd| | | | |hours];
    unfold step, complete.
  - destruct (0 <=? dt); [|discriminate]. intros [= <-]. unfold count. cbn. lia.
  - unfold dispatch.
    destruct (find _ _) as [s|]; [|discriminate].
    destruct (ready s w); [|discriminate].
    pose proof (callback_spawn (src_cb s) w) as F. unfold exec in F.
    destruct (run_callback _ _) as [again w1]. cbn [snd] in F.
    destruct F as [F1 F2].
    destruct again; intros [= <-]; unfold count in *; cbn in *; lia.
  - destruct (existsb _ _); [|discriminate]. intros [= <-]. unfold count. cbn. lia.
  - destruct (existsb _ _); [|discriminate]. intros [= <-].
    destruct res; unfold count; cbn; lia.
  - destruct (existsb _ _); [|discriminate]. intros [= <-].
    destruct res; [unfold count; cbn; lia|]. io. probes; lia.
  - intros [= <-]. io. rewrite ?andb_false_r. cbn. probes; lia.
  - intros [= <-]. unfold count. cbn. lia.
  - intros [= <-]. io. probes; lia.
  - intros [= <-]. io. probes; lia.
  - intros [= <-]. io. probes; lia.
  - intros [= <-]. io. probes; lia.
Qed.

(** X15. The plug-in never installs on its own.  Over any run, the
    installers spawned are at most as many as the times the user chose to
    install, from the menu or from the dialog, and the boxes shown at most
    as many as the times the menu entry was chosen: timers, checks, the
    control message and reconfiguration spawn nothing and show no box. *)
Theorem plugin_never_installs_unasked (acts : list Action) (w w' : World) :
  run acts w = Some w' ->
  (count is_spawn w'
   <= count is_spawn w + List.length (List.filter is_install acts))%nat
  /\ (count is_message w'
      <= count is_message w
         + List.length (List.filter is_menu_install acts))%nat.
Proof.
  revert w. induction acts as [|a acts IH]; intros w; cbn.
  - intros [= <-]. lia.
  - destruct (step a w) as [w1|] eqn:S1; [|discriminate]. intros R.
    destruct (step_spawn _ _ _ S1) as [A B].
    destruct (IH _ R) as [A' B'].
    destruct (is_install a), (is_menu_install a); cbn; lia.
Qed.

(** X16. The notification can be followed.  When a completed check
    notifies, the icon it tells the user to click is visible and
    sensitive, and the id array that [show_updates] lists is there and is
    not empty. *)
Theorem notification_comes_with_the_icon (w : World) (task : nat)
    (results : PkPackageSack) :
  let w' := exec (check_updates_done task (Finished results)) w in
  count is_notify w' = S (count is_notify w) ->
  shown w' = true /\ sensitive w' = true
  /\ exists l, ids (up w') = Some l /\ l <> [].
Proof.
  intros w'.
  destruct (check_updates_done_publishes w task results)
    as [N [I [_ [_ [Sh [Se [C _]]]]]]].
  fold w' in N, I, Sh, Se, C. rewrite C, Sh, Se, I.
  set (n := int_of_Z _).
  destruct (0 <? n) eqn:P; [|lia]. intros _.
  apply Z.ltb_lt in P.
  assert (Z0 : (n =? 0) = false) by (apply Z.eqb_neq; lia).
  rewrite Z0. split; [reflexivity|]. split; [reflexivity|].
  eexists. split; [reflexivity|].
  unfold n, pk_package_sack_get_size, pk_package_sack_get_ids in *.
  destruct (fsack_of w results); [|discriminate].
  vm_compute in P. discriminate.
Qed.

(** X17. The last completed check decides.  A check that completes after
    another one publishes what it would have published alone, provided
    the platform probe answers the same: count, ids and icon do not
    depend on what the earlier check found. *)
Theorem last_check_decides (w : World) (task task' : nat)
    (earlier results : PkPackageSack) :
  let w1 := exec (check_updates_done task (Finished earlier)) w in
  eval (system cmd_is_pi) w1 = eval (system cmd_is_pi) w ->
  let both := exec (check_updates_done task' (Finished results)) w1 in
  let alone := exec (check_updates_done task' (Finished results)) w in
  n_updates (up both) = n_updates (up alone)
  /\ ids (up both) = ids (up alone)
  /\ shown both = shown alone /\ sensitive both = sensitive alone.
Proof.
  intros w1 E both alone.
  destruct (check_updates_done_publishes w1 task' results)
    as [N [I [_ [_ [Sh [Se _]]]]]].
  destruct (check_updates_done_publishes w task' results)
    as [N' [I' [_ [_ [Sh' [Se' _]]]]]].
  fold both in N, I, Sh, Se. fold alone in N', I', Sh', Se'.
  assert (F : fsack_of w1 results = fsack_of w results)
    by (unfold fsack_of; now rewrite E).
  rewrite F in *. repeat split; congruence.
Qed.
Lemma run_step (e : Installer.Event) (es : list Installer.Event)
    (s s1 s' : Installer.State) :
  Installer.step e s = Some s1 -> Installer.run es s1 = Some s' ->
  Installer.run (e :: es) s = Some s'.
Proof. intros S R. cbn. now rewrite S. Qed.

(** X18. A session in which every request succeeds runs to its end: the
    platform probe is made once; if the filtered answer to the update
    query holds packages, exactly their ids are updated, and otherwise no
    update is requested; then the installer says that the system is up to
    date, and the timeout, called two seconds later or more, destroys the
    dialog and leaves the main loop. *)
Theorem clean_session_installs_and_closes (orc : nat -> string -> Z)
    (found : PkPackageSack) (wait : Z) :
  2 <= wait ->
  let sack := if negb (orc 0%nat cmd_is_pi =? 0)
              then pk_package_sack_filter found Installer.filter_fn
              else found in
  let updates := 0 <? pk_package_sack_get_size sack in
  exists s,
    Installer.run (clean_session found updates wait) (Installer.main orc)
    = Some s
    /\ Installer.quits s = 1%nat /\ Installer.msg_dlg s = None
    /\ Installer.requests s = [] /\ Installer.ticks s = 1%nat
    /\ Installer.log s
       = (if updates
          then [Installer.ReqUpdatePackages 0 (pk_package_sack_get_ids sack)]
          else [])
         ++ [Installer.ReqGetUpdates 0; Installer.ReqRefreshCache 0].
Proof.
  intros W sack updates. unfold clean_session.
  assert (W0 : (0 <=? wait) = true) by (apply Z.leb_le; lia).
  assert (W2 : (2 <=? wait) = true) by (apply Z.leb_le; lia).
  pose proof (eq_refl : updates = (0 <? pk_package_sack_get_size sack)) as U.
  unfold sack in U.
  unfold Installer.main.
  destruct updates; cbn [app]; eexists; split.
  - eapply run_step; [inst_unfold; cbn; reflexivity|].
    eapply run_step; [inst_unfold; cbn; reflexivity|].
    eapply run_step; [inst_unfold; cbn; rewrite <- U; reflexivity|].
    eapply run_step; [inst_unfold; cbn; reflexivity|].
    eapply run_step; [inst_unfold; cbn; rewrite W0; reflexivity|].
    eapply run_step; [inst_unfold; cbn; rewrite W2; reflexivity|].
    reflexivity.
  - cbn. repeat split; reflexivity.
  - eapply run_step; [inst_unfold; cbn; reflexivity|].
    eapply run_step; [inst_unfold; cbn; reflexivity|].
    eapply run_step; [inst_unfold; cbn; rewrite <- U; reflexivity|].
    eapply run_step; [inst_unfold; cbn; rewrite W0; reflexivity|].
    eapply run_step; [inst_unfold; cbn; rewrite W2; reflexivity|].
    reflexivity.
  - cbn. repeat split; reflexivity.
Qed.

Lemma clean_session_installs_and_closes_witness :
  exists s,
    Installer.run (clean_session [pkg_foo; pkg_bar] true 3) s_pc = Some s
    /\ Installer.quits s = 1%nat
    /\ Installer.log s
       = [Installer.ReqUpdatePackages 0 ["bar;3.0;armhf;"%string];
          Installer.ReqGetUpdates 0; Installer.ReqRefreshCache 0].
Proof.
  destruct (clean_session_installs_and_closes (machine false true true false)
              [pkg_foo; pkg_bar] 3 ltac:(lia))
    as [s [R [Q [_ [_ [_ L]]]]]].
  exists s. split; [exact R|]. split; [exact Q | exact L].
Defined.

Lemma plugin_never_installs_unasked_witness :
  exists w', run recheck w_has_updates = Some w'
             /\ count is_spawn w' = 0%nat.
Proof.
  destruct (run recheck w_has_updates) as [w'|] eqn:R;
    [|vm_compute in R; discriminate].
  destruct (plugin_never_installs_unasked _ _ _ R) as [A _].
  exists w'. split; [reflexivity|].
  assert (S0 : count is_spawn w_has_updates = 0%nat)
    by (vm_compute; reflexivity).
  rewrite S0 in A. cbn in A. lia.
Defined.

Lemma notification_comes_with_the_icon_witness :
  shown (exec (check_updates_done 0 (Finished [pkg_bar])) w_pc) = true.
Proof.
  destruct (notification_comes_with_the_icon w_pc 0 [pkg_bar]) as [A _];
    [vm_compute; reflexivity | exact A].
Defined.

Lemma last_check_decides_witness :
  ids (up (exec (check_updates_done 1 (Finished [pkg_bar]))
             (exec (check_updates_done 0 (Finished [pkg_foo; pkg_bar])) w_pc)))
  = ids (up (exec (check_updates_done 1 (Finished [pkg_bar])) w_pc)).
Proof.
  destruct (last_check_decides w_pc 0 1 [pkg_foo; pkg_bar] [pkg_bar] eq_refl)
    as [_ [A _]].
  exact A.
Defined.
